(** * Context assembly and incremental summarisation

    A shallow embedding of [context.py] and [llm_utils.py] (with the
    numeric settings of [config.py]) and the properties of the context
    builder: the short and the long regime, per-turn compression, the
    incremental summariser, the emergency ceiling and the behaviour when
    the condensation service is down.

    Python values are modelled as follows: [int] is [Z]; [str] is [string]
    (one character per code point); a message dict with the keys [role] and
    [content] is the record [Message]; [None] is [None]; an exception is the
    outcome [Raised].  Functions that touch the database or the generation
    service are computations in a state-and-exception monad over [World]. *)

From stdpp Require Import gmap strings list fin_maps.
From Stdlib Require Import ZArith Lia QArith.

Local Open Scope Z_scope.

(** ** Data model *)

(** A message as the database hands it out and as the generation service
    takes it: [{"role": ..., "content": ...}]. *)
Record Message := mkMessage { role : string; content : string }.

#[global] Instance Message_eq_dec : EqDecision Message.
Proof. solve_decision. Defined.

(** One request sent by [call_llm]: its [messages] and the [max_tokens]
    argument of the call (the [temperature] argument is a float and is not
    recorded; neither of them reaches the payload). *)
Record LlmCall := mkCall { call_messages : list Message; call_max_tokens : Z }.

(** The state the code runs against: the message log and the summary cache
    of the SQLite database, both per session, and the requests issued to
    the generation service so far, oldest first. *)
Record World := mkWorld {
  db_messages : gmap string (list Message);
  db_summaries : gmap string (gmap Z string);
  llm_log : list LlmCall
}.

#[global] Instance LlmCall_eq_dec : EqDecision LlmCall.
Proof. solve_decision. Defined.

#[global] Instance World_eq_dec : EqDecision World.
Proof. solve_decision. Defined.

(** A request body of [/api/chat] ([PromptIn]); the [model] field is only
    printed. *)
Record PromptIn := mkPromptIn {
  body_prompt : string;
  body_model : string;
  body_session_id : string;
  body_max_tokens : Z
}.

(** What a handler hands to the web framework: a response body, or an
    [HTTPException] with its status code (the [detail] text, which holds a
    formatted float or the text of an exception, is left out). *)
Inductive HttpResult (A : Type) : Type :=
| Responded (a : A)
| HTTPException (status_code : Z).
Arguments Responded {A} a.
Arguments HTTPException {A} status_code.

(** The process: the database and service log, and the global
    [last_request_time]. *)
Record Server := mkServer { server_world : World; last_request_time : Q }.

(** The body of the answer of [/api/summary/{session_id}]; the key
    [summary_covers] is present only for a session long enough to have a
    summary. *)
Record SummaryResponse := mkSummaryResponse {
  resp_session_id : string;
  resp_summary : string;
  resp_messages : Z;
  resp_summary_covers : option Z
}.

#[global] Instance PromptIn_eq_dec : EqDecision PromptIn.
Proof. solve_decision. Defined.

#[global] Instance HttpResult_eq_dec `{EqDecision A} : EqDecision (HttpResult A).
Proof. solve_decision. Defined.

#[global] Instance Q_eq_dec : EqDecision Q.
Proof. solve_decision. Defined.

#[global] Instance Server_eq_dec : EqDecision Server.
Proof. solve_decision. Defined.

#[global] Instance SummaryResponse_eq_dec : EqDecision SummaryResponse.
Proof. solve_decision. Defined.

(** ** The monad: state plus exceptions *)

Inductive Outcome (A : Type) : Type :=
| Returned (a : A)
| Raised.
Arguments Returned {A} a.
Arguments Raised {A}.

#[global] Instance Outcome_eq_dec `{EqDecision A} : EqDecision (Outcome A).
Proof. solve_decision. Defined.

Definition M (A : Type) : Type := World → Outcome A * World.

#[global] Instance M_ret : MRet M := λ A a w, (Returned a, w).
#[global] Instance M_bind : MBind M := λ A B f m w,
  match m w with
  | (Returned a, w') => f a w'
  | (Raised, w') => (Raised, w')
  end.

(** [try: body except Exception: handler] *)
Definition try_except {A} (body handler : M A) : M A := λ w,
  match body w with
  | (Returned a, w') => (Returned a, w')
  | (Raised, w') => handler w'
  end.

Definition gets {A} (f : World → A) : M A := λ w, (Returned (f w), w).

(** [[f(x) for x in xs]], evaluated left to right. *)
Fixpoint list_comp {A B} (f : A → M B) (xs : list A) : M (list B) :=
  match xs with
  | [] => mret []
  | x :: xs' => y ← f x; ys ← list_comp f xs'; mret (y :: ys)
  end.

(** ** Python helpers *)

Definition nl : string := String (Ascii.ascii_of_nat 10) EmptyString.

(** [s[:n]] *)
Definition str_take (n : Z) (s : string) : string :=
  if decide (0 ≤ n) then String.substring 0 (Z.to_nat n) s
  else String.substring 0 (String.length s - Z.to_nat (- n))%nat s.

(** [l[-n:]] for a positive [n] *)
Definition lastn {A} (n : nat) (l : list A) : list A :=
  drop (length l - n)%nat l.

(** [d[key]] on a dict: [KeyError] for a key that is missing. *)
Definition getitem {V} (d : gmap string V) (key : string) : M V := λ w,
  match d !! key with
  | Some v => (Returned v, w)
  | None => (Raised, w)
  end.

(** Truth value of a [str]: the empty string is false. *)
Definition str_truthy (s : string) : bool :=
  match s with EmptyString => false | String _ _ => true end.

(** ** config.py *)

Definition RECENT_MESSAGE_COUNT : Z := 10.
Definition SUMMARY_MAX_TOKENS : Z := 2000.
Definition MESSAGE_COMPRESS_THRESHOLD : Z := 2500.
Definition MESSAGE_COMPRESSED_SIZE : Z := 800.
Definition MAX_INPUT_TOKENS : Z := 50000.

(** [MIN_REQUEST_INTERVAL], in seconds.  Clock readings ([time.time()]) are
    modelled as rationals; the rounding of their difference is not. *)
Definition MIN_REQUEST_INTERVAL : Q := 2.

(** [MODEL_CONFIG], a dict with a text and a number. *)
Inductive ConfigValue :=
| ConfigStr (s : string)
| ConfigInt (n : Z).

Definition MODEL_CONFIG : gmap string ConfigValue :=
  {[ "name" := ConfigStr "x-ai/grok-4-fast"; "max_output" := ConfigInt 4000 ]}.

Definition SUMMARY_PROMPT : string :=
"Analyze this conversation and create a comprehensive story summary that captures:

1. Main characters and their current status
2. Key plot developments and events
3. Current setting and situation
4. Important details and unresolved threads

Keep it concise but informative. Format as flowing prose, not bullet points.".

Definition COMPRESS_PROMPT : string :=
"Summarize the following story segment concisely while preserving key plot points, character actions, and important details. Keep it under 200 words:".

(** ** database.py *)

(** Modelled from the spec: [database.py] is not among the sources.  The
    message log is "ordered, append-only per-session"; a session without a
    row has no turns. *)
Definition session_log (w : World) (session_id : string) : list Message :=
  default [] (db_messages w !! session_id).

(** Modelled from the spec: [count(session) -> int]. *)
Definition count_messages (session_id : string) : M Z :=
  gets (λ w, Z.of_nat (length (session_log w session_id))).

(** Modelled from the spec: [all(session) -> chronological list<Turn>]. *)
Definition get_all_messages (session_id : string) : M (list Message) :=
  gets (λ w, session_log w session_id).

(** Modelled from the spec: [lastN(session, n) -> chronological list<Turn>]. *)
Definition get_last_n_messages (session_id : string) (n : Z) : M (list Message) :=
  gets (λ w, lastn (Z.to_nat n) (session_log w session_id)).

(** Modelled from the spec: [range(session, fromPos, toPos)], "1-indexed,
    inclusive": the turns at the positions [p] with
    [fromPos <= p <= toPos], the first turn of a session being at
    position 1. *)
Definition log_range (l : list Message) (from_pos to_pos : Z) : list Message :=
  let lo := Z.max from_pos 1 in
  take (Z.to_nat (to_pos - lo + 1)) (drop (Z.to_nat (lo - 1)) l).

Definition get_messages_range (session_id : string) (from_pos to_pos : Z)
  : M (list Message) :=
  gets (λ w, log_range (session_log w session_id) from_pos to_pos).

(** Modelled from the spec: the summary cache of one session maps a
    coverage to a text. *)
Definition session_cache (w : World) (session_id : string) : gmap Z string :=
  default ∅ (db_summaries w !! session_id).

(** Modelled from the spec: [get(session, coverage) -> optional text],
    "exact match only". *)
Definition get_cached_summary (session_id : string) (coverage : Z)
  : M (option string) :=
  gets (λ w, session_cache w session_id !! coverage).

(** The entry of greatest coverage among the bindings of a cache. *)
Definition pick_latest (kv : Z * string) (acc : option (Z * string))
  : option (Z * string) :=
  match acc with
  | Some best => if decide (best.1 < kv.1) then Some kv else Some best
  | None => Some kv
  end.

Definition latest_entry (m : gmap Z string) : option (Z * string) :=
  foldr pick_latest None (map_to_list m).

(** Modelled from the spec: [getLatest(session) -> optional (coverage,
    text)] "with greatest coverage". *)
Definition get_latest_cached_summary (session_id : string)
  : M (option (Z * string)) :=
  gets (λ w, latest_entry (session_cache w session_id)).

(** Modelled from the spec: [put(session, coverage, text)]; a later [get]
    with the same session and coverage finds the text. *)
Definition put_summary (w : World) (session_id : string) (coverage : Z)
    (text : string) : World :=
  mkWorld (db_messages w)
          (<[session_id := <[coverage := text]> (session_cache w session_id)]>
             (db_summaries w))
          (llm_log w).

Definition cache_summary (session_id : string) (coverage : Z) (text : string)
  : M unit := λ w, (Returned (), put_summary w session_id coverage text).

(** Modelled from the spec: [database.store_message] is not among the
    sources; the log is "ordered, append-only per-session", so a stored
    turn becomes the last turn of its session. *)
Definition store_message (session_id role content : string) : M unit := λ w,
  (Returned (),
   mkWorld (<[session_id := session_log w session_id ++ [mkMessage role content]]>
              (db_messages w))
           (db_summaries w) (llm_log w)).

(** The world after further requests to the generation service. *)
Definition add_calls (w : World) (calls : list LlmCall) : World :=
  mkWorld (db_messages w) (db_summaries w) (llm_log w ++ calls).

Definition log_call (w : World) (messages : list Message) (max_tokens : Z)
  : World :=
  add_calls w [mkCall messages max_tokens].

(** ** Sample services, estimator and sessions *)

(** The condensation service when it is down: every request fails. *)
Definition service_down : nat → list Message → option string := λ _ _, None.

(** An estimator of the kind the spec describes, "proportional to
    character count": four characters to a token, the ratio of the
    truncation in [compress_message]. *)
Definition chars_div_4 (text : string) : Z :=
  Z.of_nat (String.length text) / 4.

Definition BASE_INSTRUCTION : string := "You are a storyteller.".

(** A text of [n] characters. *)
Fixpoint filler (n : nat) : string :=
  match n with
  | O => EmptyString
  | S k => String (Ascii.ascii_of_nat 120) (filler k)
  end.

Definition turn (n : nat) : Message :=
  mkMessage (if Nat.even n then "assistant" else "user") ("turn " +:+ filler n).

Definition turns (n : nat) : list Message := turn <$> seq 1 n.

(** Sessions of 3 and of 12 short turns with nothing cached; a session of
    12 turns whose first turn has been summarised; a session of 2 turns
    with a summary of both; a session of one turn of 10010 characters. *)
Definition short_world : World := mkWorld {[ "s" := turns 3 ]} ∅ [].

Definition long_world : World := mkWorld {[ "s" := turns 12 ]} ∅ [].

Definition resumed_world : World :=
  mkWorld {[ "s" := turns 12 ]} {[ "s" := {[ 1 := "Earlier." ]} ]} [].

Definition stale_world : World :=
  mkWorld {[ "s" := turns 2 ]} {[ "s" := {[ 2 := "Earlier." ]} ]} [].

Definition heavy_turn : Message := mkMessage "user" (filler (Z.to_nat 10010)).

Definition heavy_world : World := mkWorld {[ "s" := [heavy_turn] ]} ∅ [].

(** Services that answer every request with a short text, with 8100
    characters, with 200000 characters, and with a text that depends on
    the number of the request. *)
Definition service_brief : nat → list Message → option string :=
  λ _ _, Some "A summary.".

Definition service_wordy : nat → list Message → option string :=
  λ _ _, Some (filler (Z.to_nat 8100)).

Definition flood_text : string := filler (Z.to_nat 200000).

Definition service_flood : nat → list Message → option string :=
  λ _ _, Some flood_text.

(** A session of 12 turns whose summary for the coverage 2 is cached. *)
Definition cached_world : World :=
  mkWorld {[ "s" := turns 12 ]} {[ "s" := {[ 2 := "So far." ]} ]} [].

(** A session of 12 turns whose first turn has been summarised at length,
    and a service whose first answer fails and whose later answers are a
    short text. *)
Definition verbose_world : World :=
  mkWorld {[ "s" := turns 12 ]}
          {[ "s" := {[ 1 := filler (Z.to_nat 8100) ]} ]} [].


Definition service_numbered : nat → list Message → option string :=
  λ n _, Some (if decide (n = 0%nat) then "first answer" else "later answer").

Section Core.

(** Modelled from the spec: [database.estimate_tokens] is not among the
    sources; "pure function mapping text to an approximate token count".
    It is a parameter of the development. *)
Variable estimate_tokens : string → Z.

(** The base instruction text [config.STORY_SYSTEM_PROMPT]; nothing below
    depends on its wording. *)
Variable STORY_SYSTEM_PROMPT : string.

Section Service.

(** The generation service: the text it answers to the request number [n]
    (counting from 0) carrying the messages [msgs], or [None] when
    [call_llm] raises (network error, timeout, non-success status, an
    answer without the fields [choices], [message], [content]).  The
    service is taken to answer with a text: an answer whose [content] is
    a JSON null, which [call_llm] would return as [None] without
    raising, is outside the model. *)
Variable service : nat → list Message → option string.

(** ** llm_utils.py *)

Definition call_llm (messages : list Message) (max_tokens : Z) : M string :=
  λ w,
  match service (length (llm_log w)) messages with
  | Some response => (Returned response, log_call w messages max_tokens)
  | None => (Raised, log_call w messages max_tokens)
  end.

Definition conversation_text (messages : list Message) : string :=
  foldl (λ text msg, text +:+ (role msg +:+ ": " +:+ content msg +:+ nl +:+ nl))
        EmptyString messages.

Definition summary_messages (messages : list Message) : list Message :=
  [ mkMessage "system" SUMMARY_PROMPT;
    mkMessage "user" ("Summarize this story conversation:" +:+ nl +:+ nl
                      +:+ conversation_text messages) ].

Definition SUMMARY_FALLBACK : string := "Story context available.".

Definition generate_summary (messages : list Message) (max_tokens : Z)
  : M string :=
  try_except (call_llm (summary_messages messages) max_tokens)
             (mret SUMMARY_FALLBACK).

Definition compress_messages (content : string) : list Message :=
  [ mkMessage "system" COMPRESS_PROMPT; mkMessage "user" content ].

Definition compress_message (content : string) (target_tokens : Z) : M string :=
  try_except (call_llm (compress_messages content) target_tokens)
             (mret (str_take (target_tokens * 4) content)).

(** ** context.py *)

Definition COMPRESSED_MARKER : string := "[Previous scene, compressed]: ".

Definition compress_if_needed (message : Message) : M Message :=
  let token_count := estimate_tokens (content message) in
  if decide (token_count > MESSAGE_COMPRESS_THRESHOLD) then
    compressed_content ← compress_message (content message) MESSAGE_COMPRESSED_SIZE;
    mret (mkMessage (role message) (COMPRESSED_MARKER +:+ compressed_content))
  else mret message.

Definition SUMMARY_SEPARATOR : string := nl +:+ nl +:+ "Recent developments: ".

Definition generate_summary_incremental (session_id : string)
    (target_coverage : Z) : M string :=
  latest ← get_latest_cached_summary session_id;
  match latest with
  | Some (prev_coverage, prev_summary) =>
      if decide (prev_coverage >= target_coverage) then mret prev_summary
      else
        new_messages ← get_messages_range session_id (prev_coverage + 1)
                                           target_coverage;
        match new_messages with
        | _ :: _ =>
            new_summary_part ← generate_summary new_messages 1000;
            let combined := prev_summary +:+ SUMMARY_SEPARATOR +:+ new_summary_part in
            if decide (estimate_tokens combined > SUMMARY_MAX_TOKENS) then
              all_messages ← get_messages_range session_id 1 target_coverage;
              generate_summary all_messages SUMMARY_MAX_TOKENS
            else mret combined
        | [] => mret prev_summary
        end
  | None =>
      messages ← get_messages_range session_id 1 target_coverage;
      generate_summary messages SUMMARY_MAX_TOKENS
  end.

Definition system_segment (summary : string) : Message :=
  mkMessage "system"
    (STORY_SYSTEM_PROMPT +:+ nl +:+ nl +:+ "Story so far: " +:+ summary).

(** [sum(estimate_tokens(msg['content']) for msg in context)] *)
Definition total_tokens (context : list Message) : Z :=
  foldr (λ msg acc, estimate_tokens (content msg) + acc) 0 context.

Definition build_context (session_id current_prompt : string)
  : M (list Message) :=
  total_messages ← count_messages session_id;
  if decide (total_messages ≤ RECENT_MESSAGE_COUNT) then
    messages ← get_all_messages session_id;
    list_comp compress_if_needed messages
  else
    let old_message_count := total_messages - RECENT_MESSAGE_COUNT in
    cached ← get_cached_summary session_id old_message_count;
    summary ← match cached with
              | Some text =>
                  if str_truthy text then mret text
                  else
                    summary ← generate_summary_incremental session_id old_message_count;
                    _ ← cache_summary session_id old_message_count summary;
                    mret summary
              | None =>
                  summary ← generate_summary_incremental session_id old_message_count;
                  _ ← cache_summary session_id old_message_count summary;
                  mret summary
              end;
    recent_messages ← get_last_n_messages session_id RECENT_MESSAGE_COUNT;
    recent_messages ← list_comp compress_if_needed recent_messages;
    let context := system_segment summary :: recent_messages in
    let context :=
      if decide (total_tokens context > MAX_INPUT_TOKENS) then
        system_segment summary :: lastn 10 recent_messages
      else context in
    mret context.

(** ** main.py *)

(** The context [main.chat] sends: the prompt is stored, the context is
    built, and the prompt is appended. *)
Definition chat_context (session_id prompt : string) : M (list Message) :=
  _ ← store_message session_id "user" prompt;
  context ← build_context session_id prompt;
  mret (context ++ [mkMessage "user" prompt]).

(** [chat], with the two readings of the clock as arguments: the one at
    entry and the one taken after the generation call.  The response body
    is the list of its [choices], each the [message] of the choice.  An
    exception raised before the [try] block reaches the framework, which
    answers with status 500.  Inside the [try] block only the generation
    call is taken to raise: the answer is a text (see [service]) and the
    database does not fail, so [store_message] and [len] return. *)
Definition chat (current_time finish_time : Q) (body : PromptIn)
    (server : Server) : HttpResult (list Message) * Server :=
  let time_since_last := (current_time - last_request_time server)%Q in
  if Qlt_le_dec time_since_last MIN_REQUEST_INTERVAL then
    (HTTPException 429, server)
  else
    match chat_context (body_session_id body) (body_prompt body)
                       (server_world server) with
    | (Returned context, w1) =>
        match call_llm context (body_max_tokens body) w1 with
        | (Returned assistant_response, w2) =>
            match store_message (body_session_id body) "assistant"
                                assistant_response w2 with
            | (_, w3) =>
                (Responded [mkMessage "assistant" assistant_response],
                 mkServer w3 finish_time)
            end
        | (Raised, w2) =>
            (HTTPException 500, mkServer w2 (last_request_time server))
        end
    | (Raised, w1) =>
        (HTTPException 500, mkServer w1 (last_request_time server))
    end.

Definition get_summary_endpoint (session_id : string) : M SummaryResponse :=
  total_messages ← count_messages session_id;
  if decide (total_messages = 0) then
    mret (mkSummaryResponse session_id "No messages yet" 0 None)
  else if decide (total_messages ≤ RECENT_MESSAGE_COUNT) then
    mret (mkSummaryResponse session_id "Conversation too short for summary"
                            total_messages None)
  else
    let old_count := total_messages - RECENT_MESSAGE_COUNT in
    cached ← get_cached_summary session_id old_count;
    summary ← match cached with
              | Some text =>
                  if str_truthy text then mret text
                  else
                    summary ← generate_summary_incremental session_id old_count;
                    _ ← cache_summary session_id old_count summary;
                    mret summary
              | None =>
                  summary ← generate_summary_incremental session_id old_count;
                  _ ← cache_summary session_id old_count summary;
                  mret summary
              end;
    mret (mkSummaryResponse session_id summary total_messages (Some old_count)).

Section Stats.

(** [database.get_session_stats] is not among the sources and the spec
    does not describe it: it is taken as a parameter, any computation
    that returns a dict of numbers or raises. *)
Variable get_session_stats : string → M (gmap string Z).

(** The text [f"${(total / 1_000_000) * rate:.4f}"], a formatted float. *)
Variable format_cost : Z → ConfigValue → string.

Inductive StatsValue :=
| StatsStr (s : string)
| StatsNum (n : Z).

(** [get_stats]: the dict display is evaluated from left to right, a later
    key replacing an earlier one. *)
Definition get_stats (session_id : string) : M (gmap string StatsValue) :=
  stats ← get_session_stats session_id;
  total_tokens ← getitem stats "total_tokens";
  rate ← getitem MODEL_CONFIG "input_cost_per_1m";
  mret (<["estimated_cost" := StatsStr (format_cost total_tokens rate)]>
          ((StatsNum <$> stats) ∪ {[ "session_id" := StatsStr session_id ]})).

End Stats.

(** ** Vocabulary of the statements *)

(** What the service answers to a summarisation and to a compression
    request that is its request number [n], failures replaced by the
    fallbacks of [generate_summary] and [compress_message]. *)
Definition summary_answer (n : nat) (messages : list Message) : string :=
  default SUMMARY_FALLBACK (service n (summary_messages messages)).

Definition compress_answer (n : nat) (text : string) (target_tokens : Z)
  : string :=
  default (str_take (target_tokens * 4) text)
          (service n (compress_messages text)).

(** A segment derived from a turn: the turn itself, or a segment of the
    same role whose content carries the provenance marker. *)
Definition derived_from (turn segment : Message) : Prop :=
  segment = turn ∨
  (role segment = role turn ∧
   ∃ condensed, content segment = COMPRESSED_MARKER +:+ condensed).

(** A segment that is the compression step applied to a turn: the turn
    itself when its estimate is within the threshold, else the role of
    the turn with the marker followed by what the compression request
    for the turn's content gave, at some request number. *)
Definition condensed_from (turn segment : Message) : Prop :=
  (estimate_tokens (content turn) ≤ MESSAGE_COMPRESS_THRESHOLD ∧
   segment = turn) ∨
  (estimate_tokens (content turn) > MESSAGE_COMPRESS_THRESHOLD ∧
   ∃ n, segment =
        mkMessage (role turn)
          (COMPRESSED_MARKER +:+
           compress_answer n (content turn) MESSAGE_COMPRESSED_SIZE)).

(** The compression requests a list of turns causes: one for each turn
    above the threshold, in order. *)
Definition compress_calls (turns : list Message) : list LlmCall :=
  (λ m, mkCall (compress_messages (content m)) MESSAGE_COMPRESSED_SIZE) <$>
  filter (λ m, estimate_tokens (content m) > MESSAGE_COMPRESS_THRESHOLD) turns.

(** A request made by [generate_summary]. *)
Definition is_summary_call (c : LlmCall) : Prop :=
  ∃ messages, call_messages c = summary_messages messages.

(** "Get or create summary for old messages": the branch taken on a miss,
    and the whole step. *)
Definition regenerate (session_id : string) (old_message_count : Z)
  : M string :=
  summary ← generate_summary_incremental session_id old_message_count;
  _ ← cache_summary session_id old_message_count summary;
  mret summary.

Definition summary_phase (session_id : string) (old_message_count : Z)
  : M string :=
  cached ← get_cached_summary session_id old_message_count;
  match cached with
  | Some text =>
      if str_truthy text then mret text
      else regenerate session_id old_message_count
  | None => regenerate session_id old_message_count
  end.

(** "Get recent messages" and "Compress long recent messages" *)
Definition recent_phase (session_id : string) : M (list Message) :=
  recent_messages ← get_last_n_messages session_id RECENT_MESSAGE_COUNT;
  list_comp compress_if_needed recent_messages.

(** "Build final context": the context assembled in the normal way, the
    one rebuilt by the "Safety check", and the one returned. *)
Definition normal_context (summary : string) (recent_messages : list Message)
  : list Message :=
  system_segment summary :: recent_messages.

Definition emergency_context (summary : string)
    (recent_messages : list Message) : list Message :=
  system_segment summary :: lastn 10 recent_messages.

Definition final_context (summary : string) (recent_messages : list Message)
  : list Message :=
  if decide (total_tokens (normal_context summary recent_messages)
             > MAX_INPUT_TOKENS)
  then emergency_context summary recent_messages
  else normal_context summary recent_messages.

(** The data the long path has in hand before it assembles the context:
    the summary and the compressed recent turns. *)
Definition long_path_data (session_id : string)
  : M (string * list Message) :=
  total_messages ← count_messages session_id;
  summary ← summary_phase session_id (total_messages - RECENT_MESSAGE_COUNT);
  recent_messages ← recent_phase session_id;
  mret (summary, recent_messages).

(** The number of turns of a session, what [count_messages] returns. *)
Definition total_turns (w : World) (session_id : string) : Z :=
  Z.of_nat (length (session_log w session_id)).

(** The summary [text] is settled for the coverage [old_message_count]: it
    is cached under that coverage and, if it is the empty string (which
    the builder takes for a miss), it is also the text of the latest
    entry. *)
Definition settled (session_id : string) (old_message_count : Z)
    (text : string) (w : World) : Prop :=
  session_cache w session_id !! old_message_count = Some text ∧
  (str_truthy text = false →
   ∃ c, latest_entry (session_cache w session_id) = Some (c, text) ∧
        old_message_count ≤ c).

(** The turns a build replays: the whole log in the short regime, the last
    10 turns in the long one. *)
Definition replayed_window (w : World) (session_id : string) : list Message :=
  if decide (total_turns w session_id ≤ RECENT_MESSAGE_COUNT)
  then session_log w session_id
  else lastn 10 (session_log w session_id).

(** The world after [store_message] has appended a turn to a session. *)
Definition append_turn (w : World) (session_id : string) (m : Message)
  : World :=
  mkWorld (<[session_id := session_log w session_id ++ [m]]> (db_messages w))
          (db_summaries w) (llm_log w).

(** ** Facts about the Python helpers and the database model *)

Lemma lastn_length {A} (n : nat) (l : list A) :
  length (lastn n l) = Nat.min n (length l).
Proof. unfold lastn. rewrite length_drop. lia. Qed.

Lemma lastn_all {A} (n : nat) (l : list A) :
  (length l ≤ n)%nat → lastn n l = l.
Proof.
  intros Hle. unfold lastn.
  replace (length l - n)%nat with 0%nat by lia. apply drop_0.
Qed.

Lemma lastn_suffix {A} (n : nat) (l : list A) : lastn n l `suffix_of` l.
Proof. apply suffix_drop. Qed.

Lemma substring_0_split (n : nat) (s : string) :
  ∃ rest, s = String.substring 0 n s +:+ rest.
Proof.
  revert n. induction s as [|c s IH]; intros [|n]; simpl.
  - by exists EmptyString.
  - by exists EmptyString.
  - by exists (String c s).
  - destruct (IH n) as [rest Hrest]. exists rest.
    by rewrite Hrest at 1.
Qed.

Lemma substring_0_length (n : nat) (s : string) :
  (String.length (String.substring 0 n s) ≤ n)%nat.
Proof.
  revert n. induction s as [|c s IH]; intros [|n]; simpl; try lia.
  specialize (IH n). lia.
Qed.

Lemma str_take_split (n : Z) (s : string) : ∃ rest, s = str_take n s +:+ rest.
Proof. unfold str_take. case_decide; apply substring_0_split. Qed.

Lemma str_take_length (n : Z) (s : string) :
  0 ≤ n → Z.of_nat (String.length (str_take n s)) ≤ n.
Proof.
  intros Hn. unfold str_take. rewrite decide_True by done.
  pose proof (substring_0_length (Z.to_nat n) s). lia.
Qed.

(** [latest_entry] returns a binding of the cache whose coverage is the
    greatest one, and nothing only for the empty cache. *)
Lemma foldr_pick_latest_None (l : list (Z * string)) :
  foldr pick_latest None l = None → l = [].
Proof.
  destruct l as [|kv l]; [done|]. simpl. unfold pick_latest.
  destruct (foldr _ _ l); [case_decide|]; done.
Qed.

Lemma foldr_pick_latest_Some (l : list (Z * string)) (c : Z) (t : string) :
  foldr pick_latest None l = Some (c, t) →
  (c, t) ∈ l ∧ ∀ kv, kv ∈ l → kv.1 ≤ c.
Proof.
  revert c t. induction l as [|kv l IH]; intros c t; simpl; [done|].
  unfold pick_latest at 1.
  destruct (foldr pick_latest None l) as [[c' t']|] eqn:Hl.
  - destruct (IH c' t' eq_refl) as [Hin Hmax]. case_decide as Hlt.
    + intros [= ->]. split; [left|].
      intros kv' [->|Hin']%elem_of_cons; [done|].
      specialize (Hmax _ Hin'). simpl in *. lia.
    + intros [= <- <-]. split; [by right|].
      intros kv' [->|Hin']%elem_of_cons; [simpl in *; lia|by apply Hmax].
  - apply foldr_pick_latest_None in Hl as ->. intros [= ->].
    split; [left|]. by intros kv' ->%list_elem_of_singleton.
Qed.

Lemma latest_entry_None (m : gmap Z string) :
  latest_entry m = None ↔ m = ∅.
Proof.
  unfold latest_entry. split.
  - intros H%foldr_pick_latest_None. by apply map_to_list_empty_iff.
  - intros ->. by rewrite map_to_list_empty.
Qed.

Lemma latest_entry_Some_1 (m : gmap Z string) (c : Z) (t : string) :
  latest_entry m = Some (c, t) →
  m !! c = Some t ∧ ∀ k v, m !! k = Some v → k ≤ c.
Proof.
  unfold latest_entry. intros [Hin Hmax]%foldr_pick_latest_Some. split.
  - by apply elem_of_map_to_list.
  - intros k v Hk. apply (Hmax (k, v)). by apply elem_of_map_to_list.
Qed.

Lemma latest_entry_Some (m : gmap Z string) (c : Z) (t : string) :
  latest_entry m = Some (c, t) ↔
  m !! c = Some t ∧ ∀ k v, m !! k = Some v → k ≤ c.
Proof.
  split; [apply latest_entry_Some_1|]. intros [Hc Hmax].
  destruct (latest_entry m) as [[c' t']|] eqn:Hl.
  - apply latest_entry_Some_1 in Hl as [Hc' Hmax'].
    assert (c' = c) as -> by (specialize (Hmax _ _ Hc'); specialize (Hmax' _ _ Hc); lia).
    congruence.
  - apply latest_entry_None in Hl as ->. by rewrite lookup_empty in Hc.
Qed.

(** After a [put] at coverage [k], the latest entry is the new one, or the
    one that was latest before when its coverage is beyond [k]. *)
Lemma latest_entry_insert (m : gmap Z string) (k c : Z) (v t : string) :
  latest_entry (<[k := v]> m) = Some (c, t) →
  (c = k ∧ t = v) ∨ (k < c ∧ latest_entry m = Some (c, t)).
Proof.
  intros [Hc Hmax]%latest_entry_Some_1.
  destruct (decide (c = k)) as [->|Hne].
  - rewrite lookup_insert_eq in Hc. left. split; congruence.
  - right. rewrite lookup_insert_ne in Hc by done.
    pose proof (Hmax k v (lookup_insert_eq _ _ _)) as Hk. split; [lia|].
    apply latest_entry_Some. split; [done|]. intros k' v' Hk'.
    destruct (decide (k' = k)) as [->|Hne']; [lia|].
    apply (Hmax k' v'). by rewrite lookup_insert_ne.
Qed.

(** A coverage that is cached is at most the latest one. *)
Lemma latest_entry_lookup (m : gmap Z string) (k : Z) (v : string) :
  m !! k = Some v → ∃ c t, latest_entry m = Some (c, t) ∧ k ≤ c.
Proof.
  intros Hk. destruct (latest_entry m) as [[c t]|] eqn:Hl.
  - exists c, t. split; [done|].
    apply latest_entry_Some_1 in Hl as [_ Hmax]. by apply (Hmax k v).
  - apply latest_entry_None in Hl as ->. by rewrite lookup_empty in Hk.
Qed.

(** The range [1 .. n] is the first [n] turns, and a range that starts
    beyond the end of the log, or beyond its own end, is empty. *)
Lemma log_range_from_1 (l : list Message) (n : Z) :
  log_range l 1 n = take (Z.to_nat n) l.
Proof.
  unfold log_range. replace (Z.max 1 1) with 1 by lia.
  replace (n - 1 + 1) with n by lia. by rewrite drop_0.
Qed.


Lemma add_calls_nil (w : World) : add_calls w [] = w.
Proof. destruct w. unfold add_calls. simpl. by rewrite app_nil_r. Qed.

Lemma add_calls_app (w : World) (cs1 cs2 : list LlmCall) :
  add_calls (add_calls w cs1) cs2 = add_calls w (cs1 ++ cs2).
Proof. unfold add_calls. simpl. by rewrite app_assoc. Qed.

Lemma session_log_add_calls (w : World) (cs : list LlmCall) (sid : string) :
  session_log (add_calls w cs) sid = session_log w sid.
Proof. reflexivity. Qed.

Lemma session_cache_add_calls (w : World) (cs : list LlmCall) (sid : string) :
  session_cache (add_calls w cs) sid = session_cache w sid.
Proof. reflexivity. Qed.

(** ** How the computations run *)

Lemma run_bind {A B} (m : M A) (f : A → M B) (w : World) :
  (m ≫= f) w =
  match m w with
  | (Returned a, w') => f a w'
  | (Raised, w') => (Raised, w')
  end.
Proof. reflexivity. Qed.

Lemma run_bind_returned {A B} (m : M A) (f : A → M B) (w w' : World) (a : A) :
  m w = (Returned a, w') → (m ≫= f) w = f a w'.
Proof. intros H. by rewrite run_bind, H. Qed.

Lemma generate_summary_run (messages : list Message) (max_tokens : Z)
    (w : World) :
  generate_summary messages max_tokens w =
  (Returned (summary_answer (length (llm_log w)) messages),
   log_call w (summary_messages messages) max_tokens).
Proof.
  unfold generate_summary, try_except, call_llm, summary_answer.
  by destruct (service _ _).
Qed.

Lemma compress_message_run (text : string) (target_tokens : Z) (w : World) :
  compress_message text target_tokens w =
  (Returned (compress_answer (length (llm_log w)) text target_tokens),
   log_call w (compress_messages text) target_tokens).
Proof.
  unfold compress_message, try_except, call_llm, compress_answer.
  by destruct (service _ _).
Qed.

Lemma compress_if_needed_small (message : Message) (w : World) :
  estimate_tokens (content message) ≤ MESSAGE_COMPRESS_THRESHOLD →
  compress_if_needed message w = (Returned message, w).
Proof.
  intros Hle. unfold compress_if_needed. by rewrite decide_False by lia.
Qed.

Lemma compress_if_needed_large (message : Message) (w : World) :
  estimate_tokens (content message) > MESSAGE_COMPRESS_THRESHOLD →
  compress_if_needed message w =
  (Returned (mkMessage (role message)
               (COMPRESSED_MARKER +:+
                compress_answer (length (llm_log w)) (content message)
                                MESSAGE_COMPRESSED_SIZE)),
   log_call w (compress_messages (content message)) MESSAGE_COMPRESSED_SIZE).
Proof.
  intros Hgt. unfold compress_if_needed. rewrite decide_True by done.
  by rewrite (run_bind_returned _ _ _ _ _ (compress_message_run _ _ _)).
Qed.

Lemma derived_from_role (turn segment : Message) :
  derived_from turn segment → role segment = role turn.
Proof. by intros [->|[? _]]. Qed.

Lemma compress_calls_nil (turns : list Message) :
  Forall (λ m, estimate_tokens (content m) ≤ MESSAGE_COMPRESS_THRESHOLD) turns →
  compress_calls turns = [].
Proof.
  unfold compress_calls. induction 1 as [|m l Hm _ IH]; [done|].
  by rewrite filter_cons_False by lia.
Qed.

Lemma list_comp_compress (turns : list Message) (w : World) :
  ∃ segments,
    list_comp compress_if_needed turns w =
      (Returned segments, add_calls w (compress_calls turns)) ∧
    Forall2 derived_from turns segments.
Proof.
  revert w. induction turns as [|m l IH]; intros w.
  - exists []. split; [|constructor]. simpl. by rewrite add_calls_nil.
  - simpl list_comp.
    destruct (decide (estimate_tokens (content m) > MESSAGE_COMPRESS_THRESHOLD))
      as [Hgt|Hle].
    + rewrite (run_bind_returned _ _ _ _ _ (compress_if_needed_large _ _ Hgt)).
      destruct (IH (log_call w (compress_messages (content m))
                      MESSAGE_COMPRESSED_SIZE)) as (segs & Hrun & Hder).
      rewrite (run_bind_returned _ _ _ _ _ Hrun).
      eexists. split.
      * unfold log_call. rewrite add_calls_app. unfold compress_calls.
        by rewrite filter_cons_True by done.
      * constructor; [|done]. right. split; [done|]. by eexists.
    + assert (estimate_tokens (content m) ≤ MESSAGE_COMPRESS_THRESHOLD)
        as Hsmall by lia.
      rewrite (run_bind_returned _ _ _ _ _
                 (compress_if_needed_small _ w Hsmall)).
      destruct (IH w) as (segs & Hrun & Hder).
      rewrite (run_bind_returned _ _ _ _ _ Hrun).
      eexists. split.
      * unfold compress_calls. by rewrite filter_cons_False by done.
      * constructor; [by left|done].
Qed.

Lemma list_comp_compress_small (turns : list Message) (w : World) :
  Forall (λ m, estimate_tokens (content m) ≤ MESSAGE_COMPRESS_THRESHOLD) turns →
  list_comp compress_if_needed turns w = (Returned turns, w).
Proof.
  revert w. induction 1 as [|m l Hm _ IH]; intros; [done|].
  simpl list_comp.
  rewrite (run_bind_returned _ _ _ _ _ (compress_if_needed_small _ _ Hm)).
  by rewrite (run_bind_returned _ _ _ _ _ IH).
Qed.

(** ** The compression step *)

(** C4, as the code has it.  [compress_if_needed] hands back, unchanged
    and without touching the world, every turn whose estimate is at most
    [MESSAGE_COMPRESS_THRESHOLD].  For a turn above the threshold it makes
    one compression request for the turn's content and returns a segment
    of the same role whose content is the provenance marker followed by
    the condensed text: the answer of the service to that request, or,
    when the request fails, the first [MESSAGE_COMPRESSED_SIZE * 4]
    characters of the content.  That segment is the turn it was given
    exactly when the turn's content already is the marker followed by
    that condensed text. *)
Theorem compress_if_needed_spec (message : Message) (w : World) :
  let request := compress_messages (content message) in
  let condensed :=
    match service (length (llm_log w)) request with
    | Some answer => answer
    | None => str_take (MESSAGE_COMPRESSED_SIZE * 4) (content message)
    end in
  let segment := mkMessage (role message) (COMPRESSED_MARKER +:+ condensed) in
  (estimate_tokens (content message) ≤ MESSAGE_COMPRESS_THRESHOLD →
   compress_if_needed message w = (Returned message, w)) ∧
  (estimate_tokens (content message) > MESSAGE_COMPRESS_THRESHOLD →
   compress_if_needed message w =
     (Returned segment, log_call w request MESSAGE_COMPRESSED_SIZE) ∧
   (content segment = content message ↔
    content message = COMPRESSED_MARKER +:+ condensed)).
Proof.
  intros request condensed segment. split.
  - apply compress_if_needed_small.
  - intros Hgt. split.
    + rewrite compress_if_needed_large by done. unfold compress_answer.
      subst segment condensed request. by destruct (service _ _).
    + simpl. split; by intros ->.
Qed.

(** ** The incremental summariser *)

Section Summariser.

Variables (session_id : string) (target_coverage : Z) (w : World).

Let log := session_log w session_id.
Let full_range := log_range log 1 target_coverage.
Let call_number := length (llm_log w).

Lemma generate_summary_incremental_none :
  latest_entry (session_cache w session_id) = None →
  generate_summary_incremental session_id target_coverage w =
  (Returned (summary_answer call_number full_range),
   log_call w (summary_messages full_range) SUMMARY_MAX_TOKENS).
Proof.
  intros Hnone. unfold generate_summary_incremental.
  rewrite run_bind. unfold get_latest_cached_summary, gets. rewrite Hnone.
  rewrite run_bind. unfold get_messages_range, gets.
  apply generate_summary_run.
Qed.

Lemma generate_summary_incremental_covered (prev_coverage : Z)
    (prev_summary : string) :
  latest_entry (session_cache w session_id) = Some (prev_coverage, prev_summary) →
  prev_coverage >= target_coverage →
  generate_summary_incremental session_id target_coverage w =
  (Returned prev_summary, w).
Proof.
  intros Hlatest Hge. unfold generate_summary_incremental.
  rewrite run_bind. unfold get_latest_cached_summary, gets. rewrite Hlatest.
  by rewrite decide_True by done.
Qed.

Lemma generate_summary_incremental_no_delta (prev_coverage : Z)
    (prev_summary : string) :
  latest_entry (session_cache w session_id) = Some (prev_coverage, prev_summary) →
  prev_coverage < target_coverage →
  log_range log (prev_coverage + 1) target_coverage = [] →
  generate_summary_incremental session_id target_coverage w =
  (Returned prev_summary, w).
Proof.
  intros Hlatest Hlt Hnil. unfold generate_summary_incremental.
  rewrite run_bind. unfold get_latest_cached_summary, gets. rewrite Hlatest.
  rewrite decide_False by lia.
  rewrite run_bind. unfold get_messages_range, gets. fold log.
  by rewrite Hnil.
Qed.

Lemma generate_summary_incremental_delta (prev_coverage : Z)
    (prev_summary : string) :
  let delta := log_range log (prev_coverage + 1) target_coverage in
  let addendum := summary_answer call_number delta in
  let combined := prev_summary +:+ SUMMARY_SEPARATOR +:+ addendum in
  let w1 := log_call w (summary_messages delta) 1000 in
  latest_entry (session_cache w session_id) = Some (prev_coverage, prev_summary) →
  prev_coverage < target_coverage →
  delta ≠ [] →
  generate_summary_incremental session_id target_coverage w =
  if decide (estimate_tokens combined > SUMMARY_MAX_TOKENS) then
    (Returned (summary_answer (S call_number) full_range),
     log_call w1 (summary_messages full_range) SUMMARY_MAX_TOKENS)
  else (Returned combined, w1).
Proof.
  intros delta addendum combined w1 Hlatest Hlt Hdelta.
  unfold generate_summary_incremental.
  rewrite run_bind. unfold get_latest_cached_summary, gets. rewrite Hlatest.
  rewrite decide_False by lia.
  rewrite run_bind. unfold get_messages_range at 1, gets. fold log delta.
  destruct delta as [|m delta'] eqn:Hd; [done|].
  rewrite (run_bind_returned _ _ _ _ _ (generate_summary_run _ _ _)).
  fold call_number addendum combined w1.
  case_decide; [|done].
  rewrite run_bind. unfold get_messages_range, gets.
  rewrite generate_summary_run. subst w1. unfold log_call at 2 4. simpl.
  rewrite length_app. simpl. fold call_number.
  by replace (call_number + 1)%nat with (S call_number) by lia.
Qed.

(** The summariser always returns, and every request it makes is a
    summarisation request. *)
Lemma generate_summary_incremental_returns :
  ∃ text calls,
    generate_summary_incremental session_id target_coverage w =
      (Returned text, add_calls w calls) ∧
    Forall is_summary_call calls.
Proof.
  destruct (latest_entry (session_cache w session_id)) as [[c prev]|] eqn:Hl.
  - destruct (decide (c >= target_coverage)) as [Hge|Hlt].
    { exists prev, []. rewrite add_calls_nil. split; [|constructor].
      by eapply generate_summary_incremental_covered. }
    destruct (decide (log_range log (c + 1) target_coverage = [])) as [Hnil|Hne].
    { exists prev, []. rewrite add_calls_nil. split; [|constructor].
      eapply generate_summary_incremental_no_delta; [done|lia|done]. }
    rewrite (generate_summary_incremental_delta c prev Hl ltac:(lia) Hne).
    case_decide.
    + eexists _, _. unfold log_call. rewrite add_calls_app. split; [done|].
      repeat constructor; by eexists.
    + eexists _, _. split; [done|]. repeat constructor; by eexists.
  - rewrite (generate_summary_incremental_none Hl).
    eexists _, _. split; [done|]. repeat constructor; by eexists.
Qed.

End Summariser.

(** C1, as the code has it.  [generate_summary_incremental] takes one of
    four courses, decided by the cache entry of greatest coverage: with no
    entry it condenses the range [1 .. target_coverage] in one request;
    with an entry of coverage at least [target_coverage] it returns that
    text and makes no request; with an entry of smaller coverage and an
    empty delta range it returns the previous summary and makes no
    request; with an entry of smaller coverage and a delta range that is
    not empty it condenses the delta in one request and returns
    [previous + separator + addendum], unless the estimate of that text
    exceeds [SUMMARY_MAX_TOKENS], in which case a second request condenses
    the range [1 .. target_coverage] and its answer is returned. *)
Theorem generate_summary_incremental_cases (session_id : string)
    (target_coverage : Z) (w : World) :
  let log := session_log w session_id in
  let full_range := log_range log 1 target_coverage in
  let n := length (llm_log w) in
  (latest_entry (session_cache w session_id) = None →
   generate_summary_incremental session_id target_coverage w =
   (Returned (summary_answer n full_range),
    log_call w (summary_messages full_range) SUMMARY_MAX_TOKENS)) ∧
  (∀ prev_coverage prev_summary,
     latest_entry (session_cache w session_id)
       = Some (prev_coverage, prev_summary) →
     let delta := log_range log (prev_coverage + 1) target_coverage in
     let addendum := summary_answer n delta in
     let combined := prev_summary +:+ SUMMARY_SEPARATOR +:+ addendum in
     let w1 := log_call w (summary_messages delta) 1000 in
     (prev_coverage >= target_coverage →
      generate_summary_incremental session_id target_coverage w =
      (Returned prev_summary, w)) ∧
     (prev_coverage < target_coverage → delta = [] →
      generate_summary_incremental session_id target_coverage w =
      (Returned prev_summary, w)) ∧
     (prev_coverage < target_coverage → delta ≠ [] →
      estimate_tokens combined ≤ SUMMARY_MAX_TOKENS →
      generate_summary_incremental session_id target_coverage w =
      (Returned combined, w1)) ∧
     (prev_coverage < target_coverage → delta ≠ [] →
      estimate_tokens combined > SUMMARY_MAX_TOKENS →
      generate_summary_incremental session_id target_coverage w =
      (Returned (summary_answer (S n) full_range),
       log_call w1 (summary_messages full_range) SUMMARY_MAX_TOKENS))).
Proof.
  intros log full_range n. split.
  - apply generate_summary_incremental_none.
  - intros c prev Hlatest delta addendum combined w1. repeat split.
    + by apply generate_summary_incremental_covered.
    + by apply generate_summary_incremental_no_delta.
    + intros Hlt Hne Hfit.
      rewrite (generate_summary_incremental_delta _ _ _ c prev Hlatest Hlt Hne).
      by rewrite decide_False by (fold log n delta addendum combined; lia).
    + intros Hlt Hne Hbig.
      rewrite (generate_summary_incremental_delta _ _ _ c prev Hlatest Hlt Hne).
      by rewrite decide_True by done.
Qed.

(** ** The context builder, phase by phase *)

Lemma build_context_short_run (session_id current_prompt : string) (w : World) :
  total_turns w session_id ≤ RECENT_MESSAGE_COUNT →
  build_context session_id current_prompt w =
  list_comp compress_if_needed (session_log w session_id) w.
Proof.
  intros Hshort. unfold build_context. rewrite run_bind.
  unfold count_messages, gets. fold (total_turns w session_id).
  by rewrite decide_True by done.
Qed.

Lemma build_context_long_run (session_id current_prompt : string) (w : World) :
  RECENT_MESSAGE_COUNT < total_turns w session_id →
  build_context session_id current_prompt w =
  (data ← long_path_data session_id;
   mret (final_context data.1 data.2)) w.
Proof.
  intros Hlong.
  unfold build_context, long_path_data, summary_phase, regenerate,
    recent_phase, count_messages, get_cached_summary, get_last_n_messages, cache_summary,
    gets, mbind, M_bind, mret, M_ret, final_context, normal_context,
    emergency_context.
  fold (total_turns w session_id). rewrite decide_False by lia.
  set (old := total_turns w session_id - RECENT_MESSAGE_COUNT).
  destruct (session_cache w session_id !! old) as [text|];
    [destruct (str_truthy text)|].
  - by destruct (list_comp _ _ w) as [[recent|] w2].
  - destruct (generate_summary_incremental _ _ w) as [[summary|] w1]; [|done].
    by destruct (list_comp _ _ _) as [[recent|] w2].
  - destruct (generate_summary_incremental _ _ w) as [[summary|] w1]; [|done].
    by destruct (list_comp _ _ _) as [[recent|] w2].
Qed.

Lemma recent_phase_run (session_id : string) (w : World) :
  recent_phase session_id w =
  list_comp compress_if_needed (lastn 10 (session_log w session_id)) w.
Proof. reflexivity. Qed.


Lemma session_log_same (w w' : World) (session_id : string) :
  db_messages w' = db_messages w →
  session_log w' session_id = session_log w session_id.
Proof. unfold session_log. by intros ->. Qed.

Lemma session_cache_put (w : World) (session_id : string) (coverage : Z)
    (text : string) :
  session_cache (put_summary w session_id coverage text) session_id =
  <[coverage := text]> (session_cache w session_id).
Proof.
  unfold session_cache at 1, put_summary. simpl. by rewrite lookup_insert_eq.
Qed.

Lemma put_summary_id (w : World) (session_id : string) (coverage : Z)
    (text : string) :
  session_cache w session_id !! coverage = Some text →
  put_summary w session_id coverage text = w.
Proof.
  destruct w as [msgs sums log]. unfold put_summary, session_cache. simpl.
  destruct (sums !! session_id) as [m|] eqn:Hm; simpl.
  - intros Hc. by rewrite (insert_id m), (insert_id sums).
  - by rewrite lookup_empty.
Qed.

Lemma regenerate_returns (session_id : string) (old_message_count : Z)
    (w : World) :
  ∃ text calls,
    generate_summary_incremental session_id old_message_count w =
      (Returned text, add_calls w calls) ∧
    regenerate session_id old_message_count w =
      (Returned text,
       put_summary (add_calls w calls) session_id old_message_count text) ∧
    Forall is_summary_call calls ∧
    settled session_id old_message_count text
      (put_summary (add_calls w calls) session_id old_message_count text).
Proof.
  destruct (generate_summary_incremental_returns session_id old_message_count w)
    as (text & calls & Hrun & Hcalls).
  exists text, calls. split; [done|]. split.
  { unfold regenerate. by rewrite (run_bind_returned _ _ _ _ _ Hrun). }
  split; [done|]. split.
  - by rewrite session_cache_put, lookup_insert_eq.
  - intros _. rewrite session_cache_put, session_cache_add_calls.
    destruct (latest_entry (<[old_message_count:=text]> (session_cache w session_id)))
      as [[c t]|] eqn:Hl.
    + apply latest_entry_insert in Hl as [[-> ->]|[Hlt Hl]].
      * by exists old_message_count.
      * assert (c >= old_message_count) as Hge by lia.
        pose proof (generate_summary_incremental_covered session_id
                      old_message_count w c t Hl Hge) as Hcov.
        rewrite Hcov in Hrun. injection Hrun as -> _.
        exists c. split; [done|lia].
    + apply latest_entry_None in Hl. by apply insert_non_empty in Hl.
Qed.

Lemma summary_phase_returns (session_id : string) (old_message_count : Z)
    (w : World) :
  ∃ text calls w1,
    summary_phase session_id old_message_count w = (Returned text, w1) ∧
    db_messages w1 = db_messages w ∧
    llm_log w1 = llm_log w ++ calls ∧
    Forall is_summary_call calls ∧
    settled session_id old_message_count text w1.
Proof.
  unfold summary_phase. rewrite run_bind. unfold get_cached_summary, gets.
  destruct (regenerate_returns session_id old_message_count w)
    as (text & calls & _ & Hrun & Hcalls & Hsettled).
  destruct (session_cache w session_id !! old_message_count)
    as [cached|] eqn:Hc; [destruct (str_truthy cached) eqn:Ht|].
  - exists cached, [], w. rewrite app_nil_r. split_and!; try done.
    split; [done|]. intros Hf. congruence.
  - by eexists text, calls, _.
  - by eexists text, calls, _.
Qed.

(** Once the summary is settled the step is a pure cache read: it returns
    the same text, makes no request and leaves the world as it is. *)
Lemma summary_phase_settled (session_id : string) (old_message_count : Z)
    (text : string) (w : World) :
  settled session_id old_message_count text w →
  summary_phase session_id old_message_count w = (Returned text, w).
Proof.
  intros [Hc Hlatest]. unfold summary_phase. rewrite run_bind.
  unfold get_cached_summary, gets. rewrite Hc.
  destruct (str_truthy text) eqn:Ht; [done|].
  destruct (Hlatest eq_refl) as (c & Hl & Hle).
  unfold regenerate.
  assert (c >= old_message_count) as Hge by lia.
  rewrite (run_bind_returned _ _ _ _ _
             (generate_summary_incremental_covered _ _ _ _ _ Hl Hge)).
  rewrite run_bind. unfold cache_summary. by rewrite put_summary_id.
Qed.

Lemma settled_same_cache (session_id : string) (old_message_count : Z)
    (text : string) (w w' : World) :
  db_summaries w' = db_summaries w →
  settled session_id old_message_count text w →
  settled session_id old_message_count text w'.
Proof. unfold settled, session_cache. by intros ->. Qed.

Lemma long_path_data_returns (session_id : string) (w : World) :
  let old_message_count := total_turns w session_id - RECENT_MESSAGE_COUNT in
  let window := lastn 10 (session_log w session_id) in
  ∃ summary calls w1 recent,
    summary_phase session_id old_message_count w = (Returned summary, w1) ∧
    db_messages w1 = db_messages w ∧
    llm_log w1 = llm_log w ++ calls ∧
    Forall is_summary_call calls ∧
    settled session_id old_message_count summary w1 ∧
    long_path_data session_id w =
      (Returned (summary, recent), add_calls w1 (compress_calls window)) ∧
    Forall2 derived_from window recent ∧
    list_comp compress_if_needed window w1 =
      (Returned recent, add_calls w1 (compress_calls window)).
Proof.
  intros old window.
  destruct (summary_phase_returns session_id old w)
    as (summary & calls & w1 & Hsum & Hmsgs & Hlog & Hcalls & Hsettled).
  destruct (list_comp_compress window w1) as (recent & Hrecent & Hder).
  exists summary, calls, w1, recent. split_and!; try done.
  unfold long_path_data. rewrite run_bind. unfold count_messages, gets.
  fold (total_turns w session_id). fold old.
  rewrite (run_bind_returned _ _ _ _ _ Hsum). cbv beta.
  rewrite run_bind, recent_phase_run.
  rewrite (session_log_same _ _ _ Hmsgs). fold window. by rewrite Hrecent.
Qed.

Lemma long_path_data_settled (session_id : string) (summary : string)
    (w : World) :
  let window := lastn 10 (session_log w session_id) in
  settled session_id (total_turns w session_id - RECENT_MESSAGE_COUNT)
          summary w →
  ∃ recent,
    long_path_data session_id w =
      (Returned (summary, recent), add_calls w (compress_calls window)) ∧
    Forall2 derived_from window recent ∧
    list_comp compress_if_needed window w =
      (Returned recent, add_calls w (compress_calls window)).
Proof.
  intros window Hsettled.
  destruct (list_comp_compress window w) as (recent & Hrecent & Hder).
  exists recent. split; [|done].
  unfold long_path_data. rewrite run_bind. unfold count_messages, gets.
  fold (total_turns w session_id).
  rewrite (run_bind_returned _ _ _ _ _ (summary_phase_settled _ _ _ _ Hsettled)).
  cbv beta. rewrite run_bind, recent_phase_run. fold window.
  by rewrite Hrecent.
Qed.

Lemma compress_calls_not_summary (turns : list Message) :
  Forall (λ c, ¬ is_summary_call c) (compress_calls turns).
Proof.
  unfold compress_calls. apply Forall_fmap, Forall_forall.
  intros m _ [messages Heq]. simpl in Heq.
  unfold compress_messages, summary_messages in Heq.
  injection Heq as Hprompt _. discriminate Hprompt.
Qed.

Lemma final_context_head (summary : string) (recent : list Message) :
  head (final_context summary recent) = Some (system_segment summary).
Proof. unfold final_context. by case_decide. Qed.

Lemma total_tokens_drop (n : nat) (context : list Message) :
  (∀ text, 0 ≤ estimate_tokens text) →
  total_tokens (drop n context) ≤ total_tokens context.
Proof.
  intros Hpos. revert n.
  induction context as [|m l IH]; intros [|n]; simpl; try lia.
  specialize (IH n). specialize (Hpos (content m)). lia.
Qed.

(** ** The short regime *)

(** C6. For a session of at most [RECENT_MESSAGE_COUNT] turns
    [build_context] returns the turns of the session, each passed through
    [compress_if_needed], in the order of the log: as many segments as
    there are turns, the segment at each position derived from the turn
    at that position, no system segment put in front; the empty list for
    a session without turns. *)
Theorem build_context_short (session_id current_prompt : string) (w : World) :
  total_turns w session_id ≤ RECENT_MESSAGE_COUNT →
  build_context session_id current_prompt w =
    list_comp compress_if_needed (session_log w session_id) w ∧
  ∃ segments w',
    build_context session_id current_prompt w = (Returned segments, w') ∧
    Z.of_nat (length segments) = total_turns w session_id ∧
    Forall2 derived_from (session_log w session_id) segments ∧
    (total_turns w session_id = 0 → segments = [] ∧ w' = w).
Proof.
  intros Hshort. rewrite build_context_short_run by done. split; [done|].
  destruct (list_comp_compress (session_log w session_id) w)
    as (segments & Hrun & Hder).
  eexists segments, _. split; [done|]. split_and!; [|done|].
  - unfold total_turns. by rewrite (Forall2_length _ _ _ Hder).
  - unfold total_turns. intros Hzero.
    destruct (session_log w session_id) as [|m l]; [|simpl in Hzero; lia].
    apply Forall2_nil_inv_l in Hder as ->. split; [done|].
    apply add_calls_nil.
Qed.

(** ** The long regime *)

Lemma list_comp_compress_condensed (turns segments : list Message)
    (w w' : World) :
  list_comp compress_if_needed turns w = (Returned segments, w') →
  Forall2 condensed_from turns segments.
Proof.
  revert segments w. induction turns as [|m l IH]; intros segments w Hrun.
  - injection Hrun as <- _. constructor.
  - simpl in Hrun. rewrite run_bind in Hrun.
    destruct (decide (estimate_tokens (content m) > MESSAGE_COMPRESS_THRESHOLD))
      as [Hgt|Hle].
    + rewrite compress_if_needed_large in Hrun by done.
      rewrite run_bind in Hrun.
      destruct (list_comp compress_if_needed l _) as [[rest|] w1] eqn:Hrest;
        [|done].
      injection Hrun as <- <-. constructor; [|by eapply IH].
      right. split; [done|]. by eexists.
    + assert (estimate_tokens (content m) ≤ MESSAGE_COMPRESS_THRESHOLD)
        as Hsmall by lia.
      rewrite compress_if_needed_small in Hrun by done.
      rewrite run_bind in Hrun.
      destruct (list_comp compress_if_needed l _) as [[rest|] w1] eqn:Hrest;
        [|done].
      injection Hrun as <- <-. constructor; [|by eapply IH].
      by left.
Qed.

(** C7. For a session of more than [RECENT_MESSAGE_COUNT] turns
    [build_context] returns [1 + RECENT_MESSAGE_COUNT] segments.  The first
    is the one system segment: the base instruction followed by the
    summary, which is the text cached under the coverage [total - 10] when
    that text is not empty, and else the text the incremental summariser
    returns for that coverage (cached from then on).  The others are the
    last [RECENT_MESSAGE_COUNT] turns, each passed through
    [compress_if_needed], in the order of the log: the segment at each
    position has the role of the turn at that position and is that turn,
    or, for a turn above the threshold, the marker followed by what the
    compression request for that turn's content gave. *)
Theorem build_context_long (session_id current_prompt : string) (w : World) :
  let old_message_count := total_turns w session_id - RECENT_MESSAGE_COUNT in
  let window := lastn 10 (session_log w session_id) in
  RECENT_MESSAGE_COUNT < total_turns w session_id →
  ∃ summary w1 recent w',
    build_context session_id current_prompt w =
      (Returned (system_segment summary :: recent), w') ∧
    (∀ text,
       session_cache w session_id !! old_message_count = Some text →
       str_truthy text = true →
       summary = text ∧ w1 = w) ∧
    (session_cache w session_id !! old_message_count = None ∨
     session_cache w session_id !! old_message_count = Some EmptyString →
     ∃ w0,
       generate_summary_incremental session_id old_message_count w =
         (Returned summary, w0) ∧
       w1 = put_summary w0 session_id old_message_count summary) ∧
    list_comp compress_if_needed window w1 = (Returned recent, w') ∧
    Z.of_nat (length (system_segment summary :: recent))
      = 1 + RECENT_MESSAGE_COUNT ∧
    Forall2 condensed_from window recent ∧
    Forall2 derived_from window recent ∧
    role <$> recent = role <$> window.
Proof.
  intros old window Hlong. rewrite build_context_long_run by done.
  destruct (long_path_data_returns session_id w)
    as (summary & calls & w1 & recent & Hsum & _ & _ & _ & _ & Hdata & Hder
        & Hrecent).
  fold old in Hsum. fold window in Hdata, Hder, Hrecent.
  rewrite (run_bind_returned _ _ _ _ _ Hdata).
  assert (length recent = 10%nat) as Hlen.
  { rewrite <- (Forall2_length _ _ _ Hder). unfold window.
    rewrite lastn_length.
    unfold total_turns, RECENT_MESSAGE_COUNT in Hlong. lia. }
  eexists summary, w1, recent, _. split_and!.
  - unfold final_context, emergency_context, normal_context. simpl.
    rewrite (lastn_all 10 recent) by lia. by case_decide.
  - intros text Hhit Htruthy. unfold summary_phase in Hsum.
    rewrite run_bind in Hsum. unfold get_cached_summary, gets in Hsum.
    rewrite Hhit, Htruthy in Hsum. by injection Hsum as <- <-.
  - intros Hmiss. unfold summary_phase in Hsum.
    rewrite run_bind in Hsum. unfold get_cached_summary, gets in Hsum.
    assert (regenerate session_id old w = (Returned summary, w1)) as Hregen.
    { by destruct Hmiss as [Hm|Hm]; rewrite Hm in Hsum. }
    unfold regenerate in Hregen. rewrite run_bind in Hregen.
    destruct (generate_summary_incremental session_id old w)
      as [[text|] w0]; [|done].
    rewrite run_bind in Hregen. unfold cache_summary in Hregen.
    injection Hregen as <- <-. by exists w0.
  - exact Hrecent.
  - simpl. rewrite Hlen. done.
  - by eapply list_comp_compress_condensed.
  - done.
  - clear -Hder. induction Hder as [|turn seg l k Hd _ IH]; [done|].
    rewrite !fmap_cons. f_equal; [by apply derived_from_role|done].
Qed.

(** C8. When the estimate of the assembled context exceeds
    [MAX_INPUT_TOKENS], [build_context] returns the same system segment
    followed by the last 10 (at most) of the compressed recent segments it
    already holds, and the world it ends in, request log included, is the
    one in which the summary and the recent segments were obtained: the
    rebuild makes no request. *)
Theorem emergency_truncation (session_id current_prompt : string) (w : World)
    (summary : string) (recent : list Message) (w1 : World) :
  RECENT_MESSAGE_COUNT < total_turns w session_id →
  long_path_data session_id w = (Returned (summary, recent), w1) →
  total_tokens (system_segment summary :: recent) > MAX_INPUT_TOKENS →
  build_context session_id current_prompt w =
    (Returned (system_segment summary :: lastn 10 recent), w1) ∧
  (length (lastn 10 recent) ≤ 10)%nat ∧
  lastn 10 recent `suffix_of` recent.
Proof.
  intros Hlong Hdata Hbig. rewrite build_context_long_run by done.
  rewrite (run_bind_returned _ _ _ _ _ Hdata). split_and!.
  - unfold final_context, normal_context, emergency_context. simpl.
    by rewrite decide_True by done.
  - rewrite lastn_length. lia.
  - apply lastn_suffix.
Qed.

(** C2, as the code has it.  On the long path the context assembled in the
    normal way is returned as it is when its estimate is within
    [MAX_INPUT_TOKENS]; when it is not, the returned list is the system
    segment followed by the last 10 compressed recent segments, and its
    estimate, for an estimator without negative values, is at most the
    estimate of the normal assembly; it is not compared with the ceiling
    again. *)
Theorem build_context_ceiling (session_id current_prompt : string) (w : World) :
  (∀ text, 0 ≤ estimate_tokens text) →
  RECENT_MESSAGE_COUNT < total_turns w session_id →
  ∃ summary recent context w',
    long_path_data session_id w = (Returned (summary, recent), w') ∧
    build_context session_id current_prompt w = (Returned context, w') ∧
    total_tokens context ≤ total_tokens (system_segment summary :: recent) ∧
    (total_tokens (system_segment summary :: recent) ≤ MAX_INPUT_TOKENS →
     context = system_segment summary :: recent ∧
     total_tokens context ≤ MAX_INPUT_TOKENS) ∧
    (total_tokens (system_segment summary :: recent) > MAX_INPUT_TOKENS →
     context = system_segment summary :: lastn 10 recent).
Proof.
  intros Hpos Hlong. rewrite build_context_long_run by done.
  destruct (long_path_data_returns session_id w)
    as (summary & calls & w1 & recent & _ & _ & _ & _ & _ & Hdata & _ & _).
  rewrite (run_bind_returned _ _ _ _ _ Hdata).
  eexists summary, recent, (final_context summary recent), _.
  split; [done|]. split; [done|].
  unfold final_context, normal_context, emergency_context. simpl.
  case_decide as Hbig; simpl in Hbig; simpl.
  - split_and!; [|lia|done].
    pose proof (total_tokens_drop (length recent - 10) recent Hpos).
    unfold lastn. lia.
  - split_and!; [lia| |lia]. intros Hfit. split; [done|lia].
Qed.

(** ** Building twice *)

(** C3, as the code has it.  Of two consecutive builds of a session with no
    turn added in between, the second makes no summarisation request; it
    makes one compression request for each replayed turn above the
    compression threshold, as every build does, since condensed turns are
    not cached.  On the long path both outputs begin with the same system
    segment, and when no replayed turn is above the threshold the two
    outputs are equal and the second build makes no request at all. *)
Theorem build_context_twice (session_id prompt1 prompt2 : string) (w : World) :
  let window := replayed_window w session_id in
  ∃ out1 w1 out2,
    build_context session_id prompt1 w = (Returned out1, w1) ∧
    db_messages w1 = db_messages w ∧
    build_context session_id prompt2 w1 =
      (Returned out2, add_calls w1 (compress_calls window)) ∧
    Forall (λ c, ¬ is_summary_call c) (compress_calls window) ∧
    length (compress_calls window) =
      length (filter (λ m, estimate_tokens (content m)
                           > MESSAGE_COMPRESS_THRESHOLD) window) ∧
    (RECENT_MESSAGE_COUNT < total_turns w session_id →
     ∃ summary, head out1 = Some (system_segment summary) ∧
                head out2 = Some (system_segment summary)) ∧
    (Forall (λ m, estimate_tokens (content m) ≤ MESSAGE_COMPRESS_THRESHOLD)
            window →
     out2 = out1 ∧ add_calls w1 (compress_calls window) = w1).
Proof.
  intros window. unfold replayed_window in window.
  destruct (decide (total_turns w session_id ≤ RECENT_MESSAGE_COUNT))
    as [Hshort|Hlong]; subst window.
  - set (log := session_log w session_id).
    destruct (list_comp_compress log w) as (out1 & Hrun1 & _).
    set (w1 := add_calls w (compress_calls log)) in *.
    destruct (list_comp_compress log w1) as (out2 & Hrun2 & _).
    exists out1, w1, out2. split_and!.
    + by rewrite build_context_short_run.
    + done.
    + by rewrite build_context_short_run.
    + apply compress_calls_not_summary.
    + unfold compress_calls. by rewrite length_fmap.
    + lia.
    + intros Hsmall.
      rewrite list_comp_compress_small in Hrun1 by done.
      rewrite list_comp_compress_small in Hrun2 by done.
      injection Hrun1 as <- _. injection Hrun2 as <- _.
      by rewrite (compress_calls_nil _ Hsmall), add_calls_nil.
  - assert (RECENT_MESSAGE_COUNT < total_turns w session_id) as Hlt by lia.
    set (window := lastn 10 (session_log w session_id)).
    destruct (long_path_data_returns session_id w)
      as (summary & calls & wa & recent1 & _ & Hmsgs & _ & _ & Hsettled
          & Hdata1 & _ & Hrun1).
    fold window in Hdata1, Hrun1.
    set (w1 := add_calls wa (compress_calls window)) in *.
    assert (session_log w1 session_id = session_log w session_id) as Hlog
      by (by apply session_log_same).
    assert (total_turns w1 session_id = total_turns w session_id) as Htotal
      by (unfold total_turns; by rewrite Hlog).
    assert (settled session_id
              (total_turns w1 session_id - RECENT_MESSAGE_COUNT) summary w1)
      as Hsettled1.
    { rewrite Htotal. by apply (settled_same_cache _ _ _ wa). }
    destruct (long_path_data_settled session_id summary w1 Hsettled1)
      as (recent2 & Hdata2 & _ & Hrun2).
    rewrite Hlog in Hdata2, Hrun2. fold window in Hdata2, Hrun2.
    exists (final_context summary recent1), w1, (final_context summary recent2).
    split_and!.
    + rewrite build_context_long_run by done.
      by rewrite (run_bind_returned _ _ _ _ _ Hdata1).
    + done.
    + rewrite build_context_long_run by lia.
      by rewrite (run_bind_returned _ _ _ _ _ Hdata2).
    + apply compress_calls_not_summary.
    + unfold compress_calls. by rewrite length_fmap.
    + intros _. exists summary. by rewrite !final_context_head.
    + intros Hsmall.
      rewrite list_comp_compress_small in Hrun1 by done.
      rewrite list_comp_compress_small in Hrun2 by done.
      injection Hrun1 as <- _. injection Hrun2 as <- _.
      by rewrite (compress_calls_nil _ Hsmall), add_calls_nil.
Qed.

(** ** The live prompt *)

(** C10. The result of [build_context], the returned segments and the
    world it leaves alike, is the same for any two values of
    [current_prompt]; the prompt reaches the outgoing context as the
    segment that the caller, [chat], appends after the builder's
    output. *)
Theorem build_context_ignores_prompt (session_id prompt1 prompt2 : string)
    (w : World) :
  build_context session_id prompt1 w = build_context session_id prompt2 w ∧
  ∀ prompt built w0 w',
    store_message session_id "user" prompt w = (Returned (), w0) →
    build_context session_id prompt1 w0 = (Returned built, w') →
    chat_context session_id prompt w =
      (Returned (built ++ [mkMessage "user" prompt]), w').
Proof.
  split; [reflexivity|].
  intros prompt built w0 w' Hstore Hbuild. unfold chat_context.
  rewrite (run_bind_returned _ _ _ _ _ Hstore).
  change (build_context session_id prompt) with (build_context session_id prompt1).
  by rewrite (run_bind_returned _ _ _ _ _ Hbuild).
Qed.

Lemma final_context_window (summary : string) (recent : list Message) :
  (length recent ≤ 10)%nat →
  final_context summary recent = system_segment summary :: recent.
Proof.
  intros Hlen. unfold final_context, emergency_context, normal_context.
  rewrite lastn_all by done. by case_decide.
Qed.

Lemma build_context_returns (session_id current_prompt : string) (w : World) :
  ∃ context w',
    build_context session_id current_prompt w = (Returned context, w').
Proof.
  destruct (decide (total_turns w session_id ≤ RECENT_MESSAGE_COUNT))
    as [Hshort|Hlong].
  - rewrite build_context_short_run by done.
    destruct (list_comp_compress (session_log w session_id) w)
      as (segments & Hrun & _). by eexists _, _.
  - rewrite build_context_long_run by lia.
    destruct (long_path_data_returns session_id w)
      as (summary & calls & w1 & recent & _ & _ & _ & _ & _ & Hdata & _).
    rewrite (run_bind_returned _ _ _ _ _ Hdata). by eexists _, _.
Qed.

(** ** What the summariser and the builder leave alone, and what they cost *)

Lemma generate_summary_incremental_effect (session_id : string)
    (target_coverage : Z) (w : World) :
  ∃ text calls,
    generate_summary_incremental session_id target_coverage w =
      (Returned text, add_calls w calls) ∧
    (length calls ≤ 2)%nat ∧
    Forall is_summary_call calls.
Proof.
  destruct (latest_entry (session_cache w session_id)) as [[c prev]|] eqn:Hl.
  - destruct (decide (c >= target_coverage)) as [Hge|Hlt].
    { exists prev, []. rewrite add_calls_nil. split_and!; [|simpl; lia|constructor].
      by eapply generate_summary_incremental_covered. }
    destruct (decide (log_range (session_log w session_id) (c + 1)
                                target_coverage = [])) as [Hnil|Hne].
    { exists prev, []. rewrite add_calls_nil. split_and!; [|simpl; lia|constructor].
      eapply generate_summary_incremental_no_delta; [done|lia|done]. }
    assert (c < target_coverage) as Hlt' by lia.
    rewrite (generate_summary_incremental_delta _ _ _ c prev Hl Hlt' Hne).
    case_decide.
    + eexists _, _. unfold log_call. rewrite add_calls_app.
      split_and!; [done|simpl; lia|]. repeat constructor; by eexists.
    + eexists _, _. split_and!; [done|simpl; lia|].
      repeat constructor; by eexists.
  - rewrite (generate_summary_incremental_none _ _ _ Hl).
    eexists _, _. split_and!; [done|simpl; lia|].
    repeat constructor; by eexists.
Qed.

(** X1. [generate_summary_incremental] always returns a text; it never
    writes to the message log or to the summary cache; it makes at most
    two requests to the service, all of them summarisation requests. *)
Theorem generate_summary_incremental_never_writes (session_id : string)
    (target_coverage : Z) (w : World) :
  ∃ text w' calls,
    generate_summary_incremental session_id target_coverage w =
      (Returned text, w') ∧
    db_messages w' = db_messages w ∧
    db_summaries w' = db_summaries w ∧
    llm_log w' = llm_log w ++ calls ∧
    (length calls ≤ 2)%nat ∧
    Forall is_summary_call calls.
Proof.
  destruct (generate_summary_incremental_effect session_id target_coverage w)
    as (text & calls & Hrun & Hlen & Hcalls).
  by exists text, (add_calls w calls), calls.
Qed.

Lemma summary_phase_effect (session_id : string) (old_message_count : Z)
    (w : World) :
  ∃ text calls w1,
    summary_phase session_id old_message_count w = (Returned text, w1) ∧
    db_messages w1 = db_messages w ∧
    llm_log w1 = llm_log w ++ calls ∧
    (length calls ≤ 2)%nat ∧
    Forall is_summary_call calls ∧
    (db_summaries w1 = db_summaries w ∨
     db_summaries w1 =
       <[session_id := <[old_message_count := text]>
                         (session_cache w session_id)]> (db_summaries w)).
Proof.
  assert (∃ text calls w1,
            regenerate session_id old_message_count w = (Returned text, w1) ∧
            db_messages w1 = db_messages w ∧
            llm_log w1 = llm_log w ++ calls ∧
            (length calls ≤ 2)%nat ∧
            Forall is_summary_call calls ∧
            (db_summaries w1 = db_summaries w ∨
             db_summaries w1 =
               <[session_id := <[old_message_count := text]>
                                 (session_cache w session_id)]> (db_summaries w)))
    as Hregen.
  { destruct (generate_summary_incremental_effect session_id
                old_message_count w) as (text & calls & Hrun & Hlen & Hcalls).
    exists text, calls,
      (put_summary (add_calls w calls) session_id old_message_count text).
    split_and!; try done.
    - unfold regenerate. by rewrite (run_bind_returned _ _ _ _ _ Hrun).
    - by right. }
  unfold summary_phase. rewrite run_bind. unfold get_cached_summary, gets.
  destruct (session_cache w session_id !! old_message_count)
    as [cached|]; [destruct (str_truthy cached)|]; try done.
  exists cached, [], w. rewrite app_nil_r.
  split_and!; try done; [simpl; lia|by left].
Qed.

(** The effect of a build on the world, in one statement. *)
Lemma build_context_effect (session_id current_prompt : string) (w : World) :
  let old_message_count := total_turns w session_id - RECENT_MESSAGE_COUNT in
  ∃ context w' summary_calls text,
    build_context session_id current_prompt w = (Returned context, w') ∧
    db_messages w' = db_messages w ∧
    llm_log w' =
      llm_log w ++ summary_calls
                ++ compress_calls (replayed_window w session_id) ∧
    (length summary_calls ≤ 2)%nat ∧
    Forall is_summary_call summary_calls ∧
    (total_turns w session_id ≤ RECENT_MESSAGE_COUNT →
     summary_calls = [] ∧ db_summaries w' = db_summaries w) ∧
    (db_summaries w' = db_summaries w ∨
     db_summaries w' =
       <[session_id := <[old_message_count := text]>
                         (session_cache w session_id)]> (db_summaries w)).
Proof.
  intros old. unfold replayed_window.
  destruct (decide (total_turns w session_id ≤ RECENT_MESSAGE_COUNT))
    as [Hshort|Hlong].
  - rewrite build_context_short_run by done.
    destruct (list_comp_compress (session_log w session_id) w)
      as (segments & Hrun & _).
    eexists segments, _, [], EmptyString. split_and!; try done.
    + simpl; lia.
    + by left.
  - rewrite build_context_long_run by lia.
    destruct (summary_phase_effect session_id old w)
      as (text & calls & w1 & Hsum & Hmsgs & Hlog & Hlen & Hcalls & Hcache).
    destruct (list_comp_compress (lastn 10 (session_log w session_id)) w1)
      as (recent & Hrecent & _).
    assert (long_path_data session_id w =
            (Returned (text, recent),
             add_calls w1 (compress_calls (lastn 10 (session_log w session_id)))))
      as Hdata.
    { unfold long_path_data. rewrite run_bind. unfold count_messages, gets.
      fold (total_turns w session_id). fold old.
      rewrite (run_bind_returned _ _ _ _ _ Hsum). cbv beta.
      rewrite run_bind, recent_phase_run.
      rewrite (session_log_same _ _ _ Hmsgs). by rewrite Hrecent. }
    rewrite (run_bind_returned _ _ _ _ _ Hdata).
    eexists _, _, calls, text. split_and!; try done; try (intros; lia).
    simpl. by rewrite Hlog, app_assoc.
Qed.

(** X2. A build never writes to the message log, never touches the
    summary cache of another session, and in the cache of its own session
    changes at most the entry for the coverage [total - 10]; in the short
    regime it leaves the whole cache as it is. *)
Theorem build_context_frame (session_id current_prompt : string) (w : World) :
  ∃ context w',
    build_context session_id current_prompt w = (Returned context, w') ∧
    db_messages w' = db_messages w ∧
    (∀ other, other ≠ session_id →
              session_cache w' other = session_cache w other) ∧
    (∀ coverage,
       coverage ≠ total_turns w session_id - RECENT_MESSAGE_COUNT →
       session_cache w' session_id !! coverage =
       session_cache w session_id !! coverage) ∧
    (total_turns w session_id ≤ RECENT_MESSAGE_COUNT →
     db_summaries w' = db_summaries w).
Proof.
  destruct (build_context_effect session_id current_prompt w)
    as (context & w' & calls & text & Hrun & Hmsgs & _ & _ & _ & Hshort
        & Hcache).
  exists context, w'. split_and!; try done.
  - intros other Hne. unfold session_cache.
    destruct Hcache as [->| ->]; [done|]. by rewrite lookup_insert_ne.
  - intros coverage Hne. unfold session_cache at 1.
    destruct Hcache as [->| ->]; [done|].
    rewrite lookup_insert_eq. simpl. by rewrite lookup_insert_ne.
  - intros H. by apply Hshort.
Qed.

(** X3. A build makes at most 12 requests to the service: at most two
    summarisation requests, then one compression request for each
    replayed turn above the threshold, of which there are at most 10; in
    the short regime it makes no summarisation request. *)
Theorem build_context_request_bound (session_id current_prompt : string)
    (w : World) :
  ∃ context w' summary_calls,
    build_context session_id current_prompt w = (Returned context, w') ∧
    llm_log w' =
      llm_log w ++ summary_calls
                ++ compress_calls (replayed_window w session_id) ∧
    Forall is_summary_call summary_calls ∧
    (length summary_calls ≤ 2)%nat ∧
    (length (compress_calls (replayed_window w session_id)) ≤ 10)%nat ∧
    (length (llm_log w') ≤ length (llm_log w) + 12)%nat ∧
    (total_turns w session_id ≤ RECENT_MESSAGE_COUNT → summary_calls = []).
Proof.
  destruct (build_context_effect session_id current_prompt w)
    as (context & w' & calls & text & Hrun & _ & Hlog & Hlen & Hcalls & Hshort
        & _).
  assert (length (compress_calls (replayed_window w session_id)) ≤ 10)%nat
    as Hcompress.
  { unfold compress_calls. rewrite length_fmap.
    etransitivity; [apply length_filter|].
    unfold replayed_window, total_turns, RECENT_MESSAGE_COUNT.
    case_decide; [lia|]. rewrite lastn_length. lia. }
  exists context, w', calls. split_and!; try done.
  - rewrite Hlog, !length_app. lia.
  - intros H. by apply Hshort.
Qed.

(** X4. With the window of [RECENT_MESSAGE_COUNT = 10] turns the safety
    check never removes a segment: for a long session the returned
    context is the system segment followed by all the compressed recent
    segments, whether or not the estimate exceeds [MAX_INPUT_TOKENS]; so a
    context whose estimate is over the ceiling is returned over the
    ceiling. *)
Theorem emergency_truncation_keeps_all (session_id current_prompt : string)
    (w : World) (summary : string) (recent : list Message) (w1 : World) :
  RECENT_MESSAGE_COUNT < total_turns w session_id →
  long_path_data session_id w = (Returned (summary, recent), w1) →
  lastn 10 recent = recent ∧
  build_context session_id current_prompt w =
    (Returned (system_segment summary :: recent), w1) ∧
  (total_tokens (system_segment summary :: recent) > MAX_INPUT_TOKENS →
   ∃ context,
     build_context session_id current_prompt w = (Returned context, w1) ∧
     total_tokens context > MAX_INPUT_TOKENS).
Proof.
  intros Hlong Hdata.
  destruct (long_path_data_returns session_id w)
    as (summary' & calls & wa & recent' & _ & _ & _ & _ & _ & Hdata' & Hder & _).
  rewrite Hdata in Hdata'. injection Hdata' as -> -> ->.
  assert (length recent' ≤ 10)%nat as Hlen.
  { rewrite <- (Forall2_length _ _ _ Hder), lastn_length. lia. }
  assert (build_context session_id current_prompt w =
          (Returned (system_segment summary' :: recent'),
           add_calls wa (compress_calls (lastn 10 (session_log w session_id)))))
    as Hrun.
  { rewrite build_context_long_run by done.
    rewrite (run_bind_returned _ _ _ _ _ Hdata). simpl.
    by rewrite final_context_window. }
  split_and!; [by apply lastn_all|done|]. intros Hbig. by eexists.
Qed.

(** X5. Incremental extension through the builder.  When the latest cached
    summary covers [c] turns, with [0 <= c < total - 10], and the extended
    summary fits the budget, a build makes exactly one summarisation
    request, over the [total - 10 - c] turns that follow the covered ones
    and over no other turn, caches the previous summary followed by the
    separator and the answer under the coverage [total - 10], and puts
    that text into the system segment. *)
Theorem build_context_extends_summary (session_id current_prompt : string)
    (w : World) (c : Z) (prev : string) :
  let old_message_count := total_turns w session_id - RECENT_MESSAGE_COUNT in
  let delta := take (Z.to_nat (old_message_count - c))
                    (drop (Z.to_nat c) (session_log w session_id)) in
  let addendum := summary_answer (length (llm_log w)) delta in
  let combined := prev +:+ SUMMARY_SEPARATOR +:+ addendum in
  let window := lastn 10 (session_log w session_id) in
  latest_entry (session_cache w session_id) = Some (c, prev) →
  0 ≤ c → c < old_message_count →
  estimate_tokens combined ≤ SUMMARY_MAX_TOKENS →
  length delta = Z.to_nat (old_message_count - c) ∧
  ∃ recent,
    build_context session_id current_prompt w =
      (Returned (system_segment combined :: recent),
       add_calls
         (put_summary (log_call w (summary_messages delta) 1000)
                      session_id old_message_count combined)
         (compress_calls window)) ∧
    Forall (λ call, ¬ is_summary_call call) (compress_calls window).
Proof.
  intros old delta addendum combined window Hlatest Hc Hlt Hfit.
  assert (log_range (session_log w session_id) (c + 1) old = delta) as Hrange.
  { unfold log_range, delta. replace (Z.max (c + 1) 1) with (c + 1) by lia.
    by replace (old - (c + 1) + 1) with (old - c) by lia;
       replace (c + 1 - 1) with c by lia. }
  assert (length delta = Z.to_nat (old - c)) as Hlen.
  { unfold delta. rewrite length_take, length_drop.
    unfold old, total_turns, RECENT_MESSAGE_COUNT in *. lia. }
  split; [done|].
  assert (delta ≠ []) as Hne.
  { intros Hnil. rewrite Hnil in Hlen. simpl in Hlen. lia. }
  assert (session_cache w session_id !! old = None) as Hmiss.
  { destruct (session_cache w session_id !! old) as [v|] eqn:Hv; [|done].
    destruct (latest_entry_lookup _ _ _ Hv) as (c' & t' & Hl & Hle).
    rewrite Hlatest in Hl. injection Hl as <- _. lia. }
  assert (generate_summary_incremental session_id old w =
          (Returned combined, log_call w (summary_messages delta) 1000))
    as Hgen.
  { rewrite <- Hrange in Hne.
    rewrite (generate_summary_incremental_delta _ _ _ c prev Hlatest Hlt Hne).
    rewrite Hrange. fold addendum combined.
    by rewrite decide_False by lia. }
  set (wa := put_summary (log_call w (summary_messages delta) 1000)
                         session_id old combined).
  assert (summary_phase session_id old w = (Returned combined, wa)) as Hsum.
  { unfold summary_phase. rewrite run_bind.
    unfold get_cached_summary, gets. rewrite Hmiss.
    unfold regenerate. by rewrite (run_bind_returned _ _ _ _ _ Hgen). }
  destruct (list_comp_compress window wa) as (recent & Hrecent & Hder).
  exists recent. split; [|apply compress_calls_not_summary].
  assert (long_path_data session_id w =
          (Returned (combined, recent), add_calls wa (compress_calls window)))
    as Hdata.
  { unfold long_path_data. rewrite run_bind. unfold count_messages, gets.
    fold (total_turns w session_id). fold old.
    rewrite (run_bind_returned _ _ _ _ _ Hsum). cbv beta.
    rewrite run_bind, recent_phase_run.
    change (session_log wa session_id) with (session_log w session_id).
    fold window. by rewrite Hrecent. }
  rewrite build_context_long_run
    by (unfold old, RECENT_MESSAGE_COUNT in *; lia).
  rewrite (run_bind_returned _ _ _ _ _ Hdata). simpl.
  rewrite final_context_window; [done|].
  rewrite <- (Forall2_length _ _ _ Hder). unfold window.
  rewrite lastn_length. lia.
Qed.

(** X6. A cache hit is taken as it is: when a text that is not empty is
    cached under the coverage [total - 10], a build of the long session
    puts exactly that text into the system segment, makes no
    summarisation request and writes nothing to the database, whatever
    else the cache holds. *)
Theorem build_context_cache_hit (session_id current_prompt : string)
    (w : World) (text : string) :
  let window := lastn 10 (session_log w session_id) in
  RECENT_MESSAGE_COUNT < total_turns w session_id →
  session_cache w session_id
    !! (total_turns w session_id - RECENT_MESSAGE_COUNT) = Some text →
  str_truthy text = true →
  ∃ recent,
    build_context session_id current_prompt w =
      (Returned (system_segment text :: recent),
       add_calls w (compress_calls window)) ∧
    Forall (λ call, ¬ is_summary_call call) (compress_calls window).
Proof.
  intros window Hlong Hhit Htruthy.
  assert (settled session_id
            (total_turns w session_id - RECENT_MESSAGE_COUNT) text w)
    as Hsettled.
  { split; [done|]. intros Hf. congruence. }
  destruct (long_path_data_settled session_id text w Hsettled)
    as (recent & Hdata & Hder & _).
  exists recent. split; [|apply compress_calls_not_summary].
  rewrite build_context_long_run by done.
  rewrite (run_bind_returned _ _ _ _ _ Hdata). simpl.
  rewrite final_context_window; [done|].
  rewrite <- (Forall2_length _ _ _ Hder), lastn_length. lia.
Qed.

(** ** The summary endpoint *)

Lemma get_summary_endpoint_long_run (session_id : string) (w : World) :
  RECENT_MESSAGE_COUNT < total_turns w session_id →
  get_summary_endpoint session_id w =
  (summary ← summary_phase session_id
               (total_turns w session_id - RECENT_MESSAGE_COUNT);
   mret (mkSummaryResponse session_id summary (total_turns w session_id)
           (Some (total_turns w session_id - RECENT_MESSAGE_COUNT)))) w.
Proof.
  intros Hlong.
  unfold get_summary_endpoint, summary_phase, regenerate, count_messages,
    get_cached_summary, cache_summary, gets, mbind, M_bind, mret, M_ret.
  fold (total_turns w session_id).
  rewrite decide_False by (unfold RECENT_MESSAGE_COUNT in *; lia).
  rewrite decide_False by lia.
  set (old := total_turns w session_id - RECENT_MESSAGE_COUNT).
  destruct (session_cache w session_id !! old) as [text|];
    [destruct (str_truthy text)|]; try done;
    by destruct (generate_summary_incremental _ _ w) as [[summary|] w1].
Qed.

(** X7. The summary endpoint and the builder share the cache.  For a long
    session the endpoint answers with the session, its number of turns
    and the coverage [total - 10]; a build that follows carries the
    summary of that answer in its system segment and makes no
    summarisation request. *)
Theorem summary_endpoint_then_build (session_id current_prompt : string)
    (w : World) :
  let old_message_count := total_turns w session_id - RECENT_MESSAGE_COUNT in
  let window := lastn 10 (session_log w session_id) in
  RECENT_MESSAGE_COUNT < total_turns w session_id →
  ∃ summary w1 recent,
    get_summary_endpoint session_id w =
      (Returned (mkSummaryResponse session_id summary
                   (total_turns w session_id) (Some old_message_count)), w1) ∧
    db_messages w1 = db_messages w ∧
    build_context session_id current_prompt w1 =
      (Returned (system_segment summary :: recent),
       add_calls w1 (compress_calls window)) ∧
    Forall (λ call, ¬ is_summary_call call) (compress_calls window).
Proof.
  intros old window Hlong.
  destruct (summary_phase_returns session_id old w)
    as (summary & calls & w1 & Hsum & Hmsgs & _ & _ & Hsettled).
  assert (session_log w1 session_id = session_log w session_id) as Hlog
    by (by apply session_log_same).
  assert (total_turns w1 session_id = total_turns w session_id) as Htotal
    by (unfold total_turns; by rewrite Hlog).
  assert (settled session_id
            (total_turns w1 session_id - RECENT_MESSAGE_COUNT) summary w1)
    as Hsettled1 by (by rewrite Htotal).
  destruct (long_path_data_settled session_id summary w1 Hsettled1)
    as (recent & Hdata & Hder & _).
  rewrite Hlog in Hdata, Hder. fold window in Hdata, Hder.
  exists summary, w1, recent. split_and!.
  - rewrite get_summary_endpoint_long_run by done.
    by rewrite (run_bind_returned _ _ _ _ _ Hsum).
  - done.
  - rewrite build_context_long_run by lia.
    rewrite (run_bind_returned _ _ _ _ _ Hdata). simpl.
    rewrite final_context_window; [done|].
    rewrite <- (Forall2_length _ _ _ Hder). unfold window.
    rewrite lastn_length. lia.
  - apply compress_calls_not_summary.
Qed.

(** X8. After a build of a long session the summary endpoint returns the
    summary of the build's system segment, makes no request and leaves
    the world as it is. *)
Theorem build_then_summary_endpoint (session_id current_prompt : string)
    (w : World) :
  RECENT_MESSAGE_COUNT < total_turns w session_id →
  ∃ summary recent w1,
    build_context session_id current_prompt w =
      (Returned (system_segment summary :: recent), w1) ∧
    get_summary_endpoint session_id w1 =
      (Returned (mkSummaryResponse session_id summary
                   (total_turns w session_id)
                   (Some (total_turns w session_id - RECENT_MESSAGE_COUNT))),
       w1).
Proof.
  intros Hlong.
  destruct (long_path_data_returns session_id w)
    as (summary & calls & wa & recent & _ & Hmsgs & _ & _ & Hsettled
        & Hdata & Hder & _).
  set (w1 := add_calls wa (compress_calls (lastn 10 (session_log w session_id))))
    in *.
  assert (session_log w1 session_id = session_log w session_id) as Hlog
    by (by apply session_log_same).
  assert (total_turns w1 session_id = total_turns w session_id) as Htotal
    by (unfold total_turns; by rewrite Hlog).
  exists summary, recent, w1. split.
  - rewrite build_context_long_run by done.
    rewrite (run_bind_returned _ _ _ _ _ Hdata). simpl.
    rewrite final_context_window; [done|].
    rewrite <- (Forall2_length _ _ _ Hder), lastn_length. lia.
  - rewrite get_summary_endpoint_long_run by lia. rewrite Htotal.
    assert (settled session_id
              (total_turns w session_id - RECENT_MESSAGE_COUNT) summary w1)
      as Hsettled1 by (by apply (settled_same_cache _ _ _ wa)).
    by rewrite (run_bind_returned _ _ _ _ _
                  (summary_phase_settled _ _ _ _ Hsettled1)).
Qed.

(** ** The chat handler *)

Lemma store_message_run (session_id role content : string) (w : World) :
  store_message session_id role content w =
  (Returned (), append_turn w session_id (mkMessage role content)).
Proof. reflexivity. Qed.

Lemma session_log_append_turn (w : World) (session_id : string) (m : Message) :
  session_log (append_turn w session_id m) session_id =
  session_log w session_id ++ [m].
Proof. unfold session_log at 1, append_turn. simpl. by rewrite lookup_insert_eq. Qed.

Lemma session_log_append_turn_ne (w : World) (session_id other : string)
    (m : Message) :
  other ≠ session_id →
  session_log (append_turn w session_id m) other = session_log w other.
Proof.
  intros Hne. unfold session_log, append_turn. simpl.
  by rewrite lookup_insert_ne.
Qed.





Lemma chat_context_run (session_id prompt : string) (w : World)
    (context : list Message) (w1 : World) :
  build_context session_id prompt
    (append_turn w session_id (mkMessage "user" prompt))
    = (Returned context, w1) →
  chat_context session_id prompt w =
  (Returned (context ++ [mkMessage "user" prompt]), w1).
Proof.
  intros Hbuild. unfold chat_context.
  rewrite (run_bind_returned _ _ _ _ _ (store_message_run _ _ _ _)).
  by rewrite (run_bind_returned _ _ _ _ _ Hbuild).
Qed.

(** A request that passes the rate limiter, in terms of the answer of the
    service to the generation request. *)
Lemma chat_run (current_time finish_time : Q) (body : PromptIn)
    (server : Server) (context : list Message) (w1 : World) :
  let user_turn := mkMessage "user" (body_prompt body) in
  let request := context ++ [user_turn] in
  (MIN_REQUEST_INTERVAL <= current_time - last_request_time server)%Q →
  build_context (body_session_id body) (body_prompt body)
    (append_turn (server_world server) (body_session_id body) user_turn)
    = (Returned context, w1) →
  chat current_time finish_time body server =
  match service (length (llm_log w1)) request with
  | Some answer =>
      (Responded [mkMessage "assistant" answer],
       mkServer (append_turn (log_call w1 request (body_max_tokens body))
                             (body_session_id body)
                             (mkMessage "assistant" answer))
                finish_time)
  | None =>
      (HTTPException 500,
       mkServer (log_call w1 request (body_max_tokens body))
                (last_request_time server))
  end.
Proof.
  intros user_turn request Hpass Hbuild. unfold chat.
  destruct (Qlt_le_dec _ _) as [Hlt|_];
    [by apply Qlt_not_le in Hlt|].
  rewrite (chat_context_run _ _ _ _ _ Hbuild). unfold call_llm.
  fold user_turn request. by destruct (service _ _).
Qed.

(** X9. A chat request that is answered leaves the log of its session
    longer by exactly two turns, the user's prompt and then the
    assistant's answer, which is also the body of the response; it leaves
    the logs of the other sessions as they were, and sets
    [last_request_time] to the reading of the clock taken after the
    generation call. *)
Theorem chat_answered (current_time finish_time : Q) (body : PromptIn)
    (server server' : Server) (choices : list Message) :
  chat current_time finish_time body server = (Responded choices, server') →
  ∃ answer,
    choices = [mkMessage "assistant" answer] ∧
    session_log (server_world server') (body_session_id body) =
      session_log (server_world server) (body_session_id body)
      ++ [mkMessage "user" (body_prompt body); mkMessage "assistant" answer] ∧
    (∀ other, other ≠ body_session_id body →
       session_log (server_world server') other =
       session_log (server_world server) other) ∧
    last_request_time server' = finish_time.
Proof.
  intros Hchat.
  destruct (Qlt_le_dec (current_time - last_request_time server)
                       MIN_REQUEST_INTERVAL) as [Hlt|Hpass] eqn:Hdec.
  { unfold chat in Hchat. by rewrite Hdec in Hchat. }
  set (user_turn := mkMessage "user" (body_prompt body)).
  set (w0 := append_turn (server_world server) (body_session_id body) user_turn).
  destruct (build_context_effect (body_session_id body) (body_prompt body) w0)
    as (context & w1 & _ & _ & Hbuild & Hmsgs & _).
  rewrite (chat_run _ _ _ _ _ _ Hpass Hbuild) in Hchat.
  destruct (service _ _) as [answer|]; [|done].
  injection Hchat as <- <-. exists answer. split_and!; try done.
  - simpl. rewrite session_log_append_turn.
    change (session_log (log_call w1 ?m ?t) ?s) with (session_log w1 s).
    rewrite (session_log_same _ _ _ Hmsgs). unfold w0.
    by rewrite session_log_append_turn, <- app_assoc.
  - intros other Hne. simpl. rewrite session_log_append_turn_ne by done.
    change (session_log (log_call w1 ?m ?t) ?s) with (session_log w1 s).
    rewrite (session_log_same _ _ _ Hmsgs). unfold w0.
    by rewrite session_log_append_turn_ne.
Qed.

(** X10. A chat request whose clock reading is less than
    [MIN_REQUEST_INTERVAL] after [last_request_time] is refused with
    status 429 and the server is left as it was: nothing is stored and no
    request is made.  When a request passes the limiter and the
    generation call raises, [chat] answers with status 500; the user's
    prompt stays in the log as the last turn of its session, no answer is
    stored, the failed request is the last one logged, and
    [last_request_time] keeps its value, so the failure does not delay
    the next request. *)
Theorem chat_refused (current_time finish_time : Q) (body : PromptIn)
    (server : Server) :
  ((current_time - last_request_time server < MIN_REQUEST_INTERVAL)%Q →
   chat current_time finish_time body server = (HTTPException 429, server)) ∧
  ((MIN_REQUEST_INTERVAL <= current_time - last_request_time server)%Q →
   ∀ request w1,
     chat_context (body_session_id body) (body_prompt body)
                  (server_world server) = (Returned request, w1) →
     service (length (llm_log w1)) request = None →
     ∃ server',
       chat current_time finish_time body server
         = (HTTPException 500, server') ∧
       session_log (server_world server') (body_session_id body) =
         session_log (server_world server) (body_session_id body)
         ++ [mkMessage "user" (body_prompt body)] ∧
       llm_log (server_world server') =
         llm_log w1 ++ [mkCall request (body_max_tokens body)] ∧
       last_request_time server' = last_request_time server).
Proof.
  split.
  - intros Hsoon. unfold chat.
    destruct (Qlt_le_dec _ _) as [_|Hle]; [done|].
    by apply Qle_not_lt in Hle.
  - intros Hpass request w1 Hcontext Hfail.
    set (w0 := append_turn (server_world server) (body_session_id body)
                           (mkMessage "user" (body_prompt body))).
    destruct (build_context_effect (body_session_id body) (body_prompt body)
                w0) as (context & wb & _ & _ & Hbuild & Hmsgs & _).
    rewrite (chat_context_run _ _ _ _ _ Hbuild) in Hcontext.
    injection Hcontext as <- <-.
    rewrite (chat_run _ _ _ _ _ _ Hpass Hbuild). cbv zeta.
    rewrite Hfail. eexists. split_and!; try done.
    simpl. change (session_log (log_call wb ?m ?t) ?s) with (session_log wb s).
    rewrite (session_log_same _ _ _ Hmsgs). unfold w0.
    by rewrite session_log_append_turn.
Qed.

(** X11. After a chat request that was answered, any request whose clock
    reading is less than [MIN_REQUEST_INTERVAL] after the reading taken at
    the end of the answered one is refused with status 429 and changes
    nothing, whatever its session and prompt. *)
Theorem chat_rate_limited_after_answer (current_time finish_time : Q)
    (body : PromptIn) (server server' : Server) (choices : list Message)
    (next_time next_finish_time : Q) (next_body : PromptIn) :
  chat current_time finish_time body server = (Responded choices, server') →
  (next_time - finish_time < MIN_REQUEST_INTERVAL)%Q →
  chat next_time next_finish_time next_body server'
    = (HTTPException 429, server').
Proof.
  intros Hchat Hsoon.
  assert (last_request_time server' = finish_time) as Hlast.
  { destruct (Qlt_le_dec (current_time - last_request_time server)
                         MIN_REQUEST_INTERVAL) as [Hlt|Hpass] eqn:Hdec.
    { unfold chat in Hchat. by rewrite Hdec in Hchat. }
    destruct (build_context_effect (body_session_id body) (body_prompt body)
                (append_turn (server_world server) (body_session_id body)
                   (mkMessage "user" (body_prompt body))))
      as (context & w1 & _ & _ & Hbuild & _).
    rewrite (chat_run _ _ _ _ _ _ Hpass Hbuild) in Hchat.
    destruct (service _ _) as [answer|]; [|done].
    by injection Hchat as _ <-. }
  unfold chat. rewrite Hlast.
  destruct (Qlt_le_dec _ _) as [_|Hle]; [done|].
  by apply Qle_not_lt in Hle.
Qed.


(** ** The statistics endpoint *)

(** X13. [get_stats] never returns a response: whatever
    [get_session_stats] returns, the dict display ends in a [KeyError],
    because [MODEL_CONFIG] has no key [input_cost_per_1m] (or, before
    that, because the statistics have no key [total_tokens]); the world
    is the one [get_session_stats] left. *)
Theorem get_stats_always_raises
    (get_session_stats : string → M (gmap string Z))
    (format_cost : Z → ConfigValue → string)
    (session_id : string) (w : World) :
  get_stats get_session_stats format_cost session_id w =
  (Raised, (get_session_stats session_id w).2) ∧
  MODEL_CONFIG !! "input_cost_per_1m" = None ∧
  is_Some (MODEL_CONFIG !! "name") ∧ is_Some (MODEL_CONFIG !! "max_output").
Proof.
  split_and!; [|done|by eexists|by eexists].
  unfold get_stats. rewrite run_bind.
  destruct (get_session_stats session_id w) as [[stats|] w1]; [|done].
  rewrite run_bind. unfold getitem at 1.
  by destruct (stats !! "total_tokens").
Qed.

(** ** The text of a summarisation request and the fallback of the
    compression *)

Lemma string_app_assoc (a b c : string) : (a +:+ b) +:+ c = a +:+ (b +:+ c).
Proof.
  induction a as [|x a IH]; [done|].
  change (String x ((a +:+ b) +:+ c) = String x (a +:+ (b +:+ c))).
  by rewrite IH.
Qed.

Lemma string_app_empty_r (a : string) : a +:+ EmptyString = a.
Proof.
  induction a as [|x a IH]; [done|].
  change (String x (a +:+ EmptyString) = String x a). by rewrite IH.
Qed.

(** X14. The conversation text that [generate_summary] sends for a list of
    turns is the text for any first part of the list followed by the text
    for the rest; for no turns it is empty. *)
Theorem conversation_text_app (messages1 messages2 : list Message) :
  conversation_text (messages1 ++ messages2) =
  conversation_text messages1 +:+ conversation_text messages2 ∧
  conversation_text [] = EmptyString.
Proof.
  split; [|done]. unfold conversation_text.
  set (f := λ (text : string) (msg : Message),
              text +:+ (role msg +:+ ": " +:+ content msg +:+ nl +:+ nl)).
  assert (∀ l acc, foldl f acc l = acc +:+ foldl f EmptyString l) as Hacc.
  { induction l as [|m l IH]; intros acc; simpl.
    - by rewrite string_app_empty_r.
    - rewrite (IH (f acc m)), (IH (f EmptyString m)). unfold f.
      change (EmptyString +:+ ?x) with x. by rewrite string_app_assoc. }
  rewrite foldl_app. apply Hacc.
Qed.

Lemma substring_0_exact (n : nat) (s : string) :
  String.length (String.substring 0 n s) = Nat.min n (String.length s).
Proof.
  revert n. induction s as [|c s IH]; intros [|n]; simpl; try done.
  by rewrite IH.
Qed.

Lemma substring_0_all (n : nat) (s : string) :
  (String.length s ≤ n)%nat → String.substring 0 n s = s.
Proof.
  revert n. induction s as [|c s IH]; intros [|n] Hle; simpl in *;
    try done; try lia.
  rewrite IH by lia. done.
Qed.

(** X15. When the request fails, [compress_message] returns, for a target
    that is not negative, the first [4 * target_tokens] characters of the
    content: the content itself when it is no longer than that, else
    exactly [4 * target_tokens] characters; it never raises and makes one
    request. *)
Theorem compress_message_fallback (text : string) (target_tokens : Z)
    (w : World) :
  service (length (llm_log w)) (compress_messages text) = None →
  0 ≤ target_tokens →
  ∃ truncated,
    compress_message text target_tokens w =
      (Returned truncated, log_call w (compress_messages text) target_tokens) ∧
    (∃ rest, text = truncated +:+ rest) ∧
    Z.of_nat (String.length truncated)
      = Z.min (4 * target_tokens) (Z.of_nat (String.length text)) ∧
    (Z.of_nat (String.length text) ≤ 4 * target_tokens → truncated = text).
Proof.
  intros Hfail Htarget. exists (str_take (target_tokens * 4) text).
  split_and!.
  - rewrite compress_message_run. unfold compress_answer. by rewrite Hfail.
  - apply str_take_split.
  - unfold str_take. rewrite decide_True by lia.
    rewrite substring_0_exact. lia.
  - intros Hshort. unfold str_take. rewrite decide_True by lia.
    apply substring_0_all. lia.
Qed.

End Service.

(** ** When the condensation service is down *)

Lemma str_truthy_app_r (a b : string) :
  str_truthy b = true → str_truthy (a +:+ b) = true.
Proof. by destruct a. Qed.

Lemma summary_answer_down (n : nat) (messages : list Message) :
  summary_answer service_down n messages = SUMMARY_FALLBACK.
Proof. reflexivity. Qed.

Lemma compress_answer_down (n : nat) (text : string) (target_tokens : Z) :
  compress_answer service_down n text target_tokens =
  str_take (target_tokens * 4) text.
Proof. reflexivity. Qed.

(** C5, as the code has it.  With the condensation service down nothing
    raises.  [generate_summary] returns the fixed placeholder.
    [generate_summary_incremental] returns the placeholder when no summary
    is cached, and when the cached summary extended by the placeholder is
    over the summary budget; it returns the cached summary alone, and
    makes no request, when its coverage reaches the target or the delta
    range is empty; else it returns the cached summary, the separator and
    the placeholder.  [compress_if_needed], for a turn above the
    threshold, returns the marked segment whose condensed text is the
    first [MESSAGE_COMPRESSED_SIZE * 4] characters of the turn's content, a
    prefix of it.  [build_context] returns a context. *)
Theorem degradation_when_service_down :
  (∀ messages max_tokens w,
     generate_summary service_down messages max_tokens w =
     (Returned SUMMARY_FALLBACK,
      log_call w (summary_messages messages) max_tokens)) ∧
  (∀ session_id target_coverage w,
     let log := session_log w session_id in
     let full_range := log_range log 1 target_coverage in
     (latest_entry (session_cache w session_id) = None →
      generate_summary_incremental service_down session_id target_coverage w
      = (Returned SUMMARY_FALLBACK,
         log_call w (summary_messages full_range) SUMMARY_MAX_TOKENS)) ∧
     (∀ prev_coverage prev_summary,
        latest_entry (session_cache w session_id)
          = Some (prev_coverage, prev_summary) →
        let delta := log_range log (prev_coverage + 1) target_coverage in
        let extended :=
          prev_summary +:+ SUMMARY_SEPARATOR +:+ SUMMARY_FALLBACK in
        let w1 := log_call w (summary_messages delta) 1000 in
        (prev_coverage >= target_coverage ∨ delta = [] →
         generate_summary_incremental service_down session_id
                                      target_coverage w
         = (Returned prev_summary, w)) ∧
        (prev_coverage < target_coverage → delta ≠ [] →
         estimate_tokens extended ≤ SUMMARY_MAX_TOKENS →
         generate_summary_incremental service_down session_id
                                      target_coverage w
         = (Returned extended, w1)) ∧
        (prev_coverage < target_coverage → delta ≠ [] →
         estimate_tokens extended > SUMMARY_MAX_TOKENS →
         generate_summary_incremental service_down session_id
                                      target_coverage w
         = (Returned SUMMARY_FALLBACK,
            log_call w1 (summary_messages full_range) SUMMARY_MAX_TOKENS)))) ∧
  (∀ message w,
     estimate_tokens (content message) > MESSAGE_COMPRESS_THRESHOLD →
     let truncated := str_take (MESSAGE_COMPRESSED_SIZE * 4) (content message) in
     compress_if_needed service_down message w =
       (Returned (mkMessage (role message) (COMPRESSED_MARKER +:+ truncated)),
        log_call w (compress_messages (content message))
                 MESSAGE_COMPRESSED_SIZE) ∧
     (∃ rest, content message = truncated +:+ rest) ∧
     Z.of_nat (String.length truncated) ≤ MESSAGE_COMPRESSED_SIZE * 4) ∧
  (∀ session_id current_prompt w,
     ∃ context w',
       build_context service_down session_id current_prompt w =
       (Returned context, w')).
Proof.
  split_and!.
  - intros. by rewrite generate_summary_run.
  - intros session_id target_coverage w log full_range. split.
    + intros Hnone. by rewrite generate_summary_incremental_none.
    + intros c prev Hlatest delta extended w1. split_and!.
      * intros [Hge|Hnil].
        { by apply (generate_summary_incremental_covered _ _ _ _ c). }
        destruct (decide (c >= target_coverage)) as [Hge|Hlt].
        { by apply (generate_summary_incremental_covered _ _ _ _ c). }
        apply (generate_summary_incremental_no_delta _ _ _ _ c);
          [done|lia|done].
      * intros Hlt Hne Hfit.
        rewrite (generate_summary_incremental_delta service_down _ _ _ c prev
                   Hlatest Hlt Hne).
        rewrite !summary_answer_down. fold log delta extended.
        by rewrite decide_False by lia.
      * intros Hlt Hne Hover.
        rewrite (generate_summary_incremental_delta service_down _ _ _ c prev
                   Hlatest Hlt Hne).
        rewrite !summary_answer_down. fold log delta extended.
        by rewrite decide_True by done.
  - intros message w Hbig truncated. split_and!.
    + by rewrite compress_if_needed_large.
    + apply str_take_split.
    + by apply str_take_length.
  - apply build_context_returns.
Qed.


End Core.

(** ** The statements at sample sessions *)

(** Closed facts about the sample data are decided by evaluation. *)
Ltac evaluate :=
  first [eapply bool_decide_eq_true_1 | eapply bool_decide_eq_false_1];
  vm_compute; reflexivity.

Lemma chars_div_4_nonneg (text : string) : 0 ≤ chars_div_4 text.
Proof. unfold chars_div_4. apply Z.div_pos; lia. Qed.

(** *** The compression step *)

Lemma compress_if_needed_spec_witness :
  (chars_div_4 (content (turn 1)) ≤ MESSAGE_COMPRESS_THRESHOLD ∧
   compress_if_needed chars_div_4 service_brief (turn 1) short_world =
     (Returned (turn 1), short_world)) ∧
  (chars_div_4 (content heavy_turn) > MESSAGE_COMPRESS_THRESHOLD ∧
   compress_if_needed chars_div_4 service_brief heavy_turn heavy_world =
     (Returned (mkMessage "user" (COMPRESSED_MARKER +:+ "A summary.")),
      log_call heavy_world (compress_messages (content heavy_turn))
               MESSAGE_COMPRESSED_SIZE)) ∧
  (chars_div_4 (content heavy_turn) > MESSAGE_COMPRESS_THRESHOLD ∧
   compress_if_needed chars_div_4 service_down heavy_turn heavy_world =
     (Returned (mkMessage "user" (COMPRESSED_MARKER +:+ filler 3200)),
      log_call heavy_world (compress_messages (content heavy_turn))
               MESSAGE_COMPRESSED_SIZE)).
Proof.
  assert (chars_div_4 (content (turn 1)) ≤ MESSAGE_COMPRESS_THRESHOLD)
    as Hsmall by evaluate.
  assert (chars_div_4 (content heavy_turn) > MESSAGE_COMPRESS_THRESHOLD)
    as Hlarge by evaluate.
  split; [|split]; (split; [assumption|]).
  - exact (proj1 (compress_if_needed_spec chars_div_4 service_brief
                    (turn 1) short_world) Hsmall).
  - exact (proj1 (proj2 (compress_if_needed_spec chars_div_4 service_brief
                           heavy_turn heavy_world) Hlarge)).
  - destruct (proj2 (compress_if_needed_spec chars_div_4 service_down
                       heavy_turn heavy_world) Hlarge) as [Hrun _].
    rewrite Hrun. evaluate.
Defined.

(** A turn whose content is the marker followed by 10010 characters, and a
    service that answers every request with those 10010 characters. *)
Definition marked_turn : Message :=
  mkMessage "user" (COMPRESSED_MARKER +:+ filler (Z.to_nat 10010)).

Definition marked_world : World := mkWorld {[ "s" := [marked_turn] ]} ∅ [].

Definition service_echo : nat → list Message → option string :=
  λ _ _, Some (filler (Z.to_nat 10010)).

(** C4 fails as stated: the turn [marked_turn] is above the threshold, a
    compression request is made, and the segment returned is the turn
    itself, with the original content. *)
Lemma compressed_segment_is_the_turn_counterexample :
  chars_div_4 (content marked_turn) > MESSAGE_COMPRESS_THRESHOLD ∧
  compress_if_needed chars_div_4 service_echo marked_turn marked_world =
    (Returned marked_turn,
     log_call marked_world (compress_messages (content marked_turn))
              MESSAGE_COMPRESSED_SIZE).
Proof. split; evaluate. Qed.

(** *** The incremental summariser *)

(** C1 fails as stated: with a cached summary of coverage 2, a log of 2
    turns and the target coverage 5, the cached coverage is below the
    target and yet the summariser returns the cached text alone, not the
    text followed by the separator and an addendum, and it makes no
    request. *)
Lemma incremental_without_delta_counterexample :
  latest_entry (session_cache stale_world "s") = Some (2, "Earlier.") ∧
  2 < 5 ∧
  generate_summary_incremental chars_div_4 service_brief "s" 5 stale_world
    = (Returned "Earlier.", stale_world) ∧
  ¬ ∃ addendum, "Earlier." = "Earlier." +:+ SUMMARY_SEPARATOR +:+ addendum.
Proof.
  split_and!.
  - evaluate.
  - lia.
  - evaluate.
  - intros [addendum H]. vm_compute in H. discriminate H.
Qed.

Lemma generate_summary_incremental_cases_witness :
  generate_summary_incremental chars_div_4 service_brief "s" 2 long_world =
    (Returned "A summary.",
     log_call long_world (summary_messages (take 2 (turns 12)))
              SUMMARY_MAX_TOKENS) ∧
  generate_summary_incremental chars_div_4 service_brief "s" 1 stale_world =
    (Returned "Earlier.", stale_world) ∧
  generate_summary_incremental chars_div_4 service_brief "s" 5 stale_world =
    (Returned "Earlier.", stale_world) ∧
  generate_summary_incremental chars_div_4 service_brief "s" 2 resumed_world =
    (Returned ("Earlier." +:+ SUMMARY_SEPARATOR +:+ "A summary."),
     log_call resumed_world (summary_messages [turn 2]) 1000) ∧
  generate_summary_incremental chars_div_4 service_wordy "s" 2 resumed_world =
    (Returned (filler (Z.to_nat 8100)),
     log_call (log_call resumed_world (summary_messages [turn 2]) 1000)
              (summary_messages (take 2 (turns 12))) SUMMARY_MAX_TOKENS).
Proof.
  split_and!.
  - apply (proj1 (generate_summary_incremental_cases chars_div_4 service_brief
                    "s" 2 long_world)).
    evaluate.
  - destruct (proj2 (generate_summary_incremental_cases chars_div_4
                       service_brief "s" 1 stale_world) 2 "Earlier.")
      as (Hcovered & _); [evaluate|].
    apply Hcovered. lia.
  - destruct (proj2 (generate_summary_incremental_cases chars_div_4
                       service_brief "s" 5 stale_world) 2 "Earlier.")
      as (_ & Hno_delta & _); [evaluate|].
    apply Hno_delta; [lia|evaluate].
  - destruct (proj2 (generate_summary_incremental_cases chars_div_4
                       service_brief "s" 2 resumed_world) 1 "Earlier.")
      as (_ & _ & Hfits & _); [evaluate|].
    apply Hfits; [lia|evaluate|evaluate].
  - destruct (proj2 (generate_summary_incremental_cases chars_div_4
                       service_wordy "s" 2 resumed_world) 1 "Earlier.")
      as (_ & _ & _ & Hover); [evaluate|].
    apply Hover; [lia|evaluate|evaluate].
Defined.

(** *** The short and the long regime *)

Lemma build_context_short_witness :
  total_turns short_world "s" ≤ RECENT_MESSAGE_COUNT ∧
  build_context chars_div_4 BASE_INSTRUCTION service_brief "s" "Go on."
                short_world =
    list_comp (compress_if_needed chars_div_4 service_brief)
              (session_log short_world "s") short_world ∧
  ∃ segments w',
    build_context chars_div_4 BASE_INSTRUCTION service_brief "s" "Go on."
                  short_world = (Returned segments, w') ∧
    Z.of_nat (length segments) = total_turns short_world "s" ∧
    Forall2 derived_from (session_log short_world "s") segments ∧
    (total_turns short_world "s" = 0 → segments = [] ∧ w' = short_world).
Proof.
  assert (total_turns short_world "s" ≤ RECENT_MESSAGE_COUNT) as Hshort
    by evaluate.
  split; [exact Hshort|].
  exact (build_context_short chars_div_4 BASE_INSTRUCTION service_brief
           "s" "Go on." short_world Hshort).
Defined.

Lemma build_context_long_witness :
  RECENT_MESSAGE_COUNT < total_turns long_world "s" ∧
  session_cache long_world "s"
    !! (total_turns long_world "s" - RECENT_MESSAGE_COUNT) = None ∧
  RECENT_MESSAGE_COUNT < total_turns cached_world "s" ∧
  session_cache cached_world "s"
    !! (total_turns cached_world "s" - RECENT_MESSAGE_COUNT) = Some "So far." ∧
  (∃ summary w0 recent w',
     build_context chars_div_4 BASE_INSTRUCTION service_brief "s" "Go on."
                   long_world =
       (Returned (system_segment BASE_INSTRUCTION summary :: recent), w') ∧
     generate_summary_incremental chars_div_4 service_brief "s"
       (total_turns long_world "s" - RECENT_MESSAGE_COUNT) long_world
       = (Returned summary, w0) ∧
     list_comp (compress_if_needed chars_div_4 service_brief)
               (lastn 10 (session_log long_world "s"))
               (put_summary w0 "s"
                  (total_turns long_world "s" - RECENT_MESSAGE_COUNT) summary)
       = (Returned recent, w') ∧
     Z.of_nat (length (system_segment BASE_INSTRUCTION summary :: recent))
       = 1 + RECENT_MESSAGE_COUNT) ∧
  (∃ recent w',
     build_context chars_div_4 BASE_INSTRUCTION service_brief "s" "Go on."
                   cached_world =
       (Returned (system_segment BASE_INSTRUCTION "So far." :: recent), w') ∧
     list_comp (compress_if_needed chars_div_4 service_brief)
               (lastn 10 (session_log cached_world "s")) cached_world
       = (Returned recent, w')).
Proof.
  assert (RECENT_MESSAGE_COUNT < total_turns long_world "s") as Hlong
    by evaluate.
  assert (session_cache long_world "s"
            !! (total_turns long_world "s" - RECENT_MESSAGE_COUNT) = None)
    as Hmiss by evaluate.
  assert (RECENT_MESSAGE_COUNT < total_turns cached_world "s") as Hlong'
    by evaluate.
  assert (session_cache cached_world "s"
            !! (total_turns cached_world "s" - RECENT_MESSAGE_COUNT)
          = Some "So far.") as Hhit by evaluate.
  split; [exact Hlong|]. split; [exact Hmiss|].
  split; [exact Hlong'|]. split; [exact Hhit|]. split.
  - destruct (build_context_long chars_div_4 BASE_INSTRUCTION service_brief
                "s" "Go on." long_world Hlong)
      as (summary & w1 & recent & w' & Hrun & _ & Hbuilt & Hrecent & Hlen & _).
    destruct (Hbuilt (or_introl Hmiss)) as (w0 & Hgen & ->).
    by exists summary, w0, recent, w'.
  - destruct (build_context_long chars_div_4 BASE_INSTRUCTION service_brief
                "s" "Go on." cached_world Hlong')
      as (summary & w1 & recent & w' & Hrun & Hcached & _ & Hrecent & _).
    destruct (Hcached "So far." Hhit eq_refl) as [-> ->].
    by exists recent, w'.
Defined.

(** *** The emergency ceiling *)

(** The world in which the long path of [long_world] holds its data when
    the service floods it: the summary is cached under coverage 2 after
    one summarisation request. *)
Definition flood_world : World :=
  put_summary
    (log_call long_world (summary_messages (take 2 (turns 12)))
              SUMMARY_MAX_TOKENS)
    "s" 2 flood_text.

Lemma flood_long_path_data :
  long_path_data chars_div_4 service_flood "s" long_world =
  (Returned (flood_text, lastn 10 (turns 12)), flood_world).
Proof. evaluate. Qed.

Lemma flood_exceeds_ceiling :
  total_tokens chars_div_4
    (system_segment BASE_INSTRUCTION flood_text :: lastn 10 (turns 12))
  > MAX_INPUT_TOKENS.
Proof. evaluate. Qed.

Lemma emergency_truncation_witness :
  RECENT_MESSAGE_COUNT < total_turns long_world "s" ∧
  long_path_data chars_div_4 service_flood "s" long_world =
    (Returned (flood_text, lastn 10 (turns 12)), flood_world) ∧
  total_tokens chars_div_4
    (system_segment BASE_INSTRUCTION flood_text :: lastn 10 (turns 12))
    > MAX_INPUT_TOKENS ∧
  build_context chars_div_4 BASE_INSTRUCTION service_flood "s" "Go on."
                long_world =
    (Returned (system_segment BASE_INSTRUCTION flood_text
               :: lastn 10 (lastn 10 (turns 12))), flood_world) ∧
  (length (lastn 10 (lastn 10 (turns 12))) ≤ 10)%nat ∧
  lastn 10 (lastn 10 (turns 12)) `suffix_of` lastn 10 (turns 12).
Proof.
  assert (RECENT_MESSAGE_COUNT < total_turns long_world "s") as Hlong
    by evaluate.
  split; [exact Hlong|].
  split; [exact flood_long_path_data|].
  split; [exact flood_exceeds_ceiling|].
  exact (emergency_truncation chars_div_4 BASE_INSTRUCTION service_flood
           "s" "Go on." long_world flood_text (lastn 10 (turns 12))
           flood_world Hlong flood_long_path_data flood_exceeds_ceiling).
Defined.

(** C2 fails as stated: for the session of 12 short turns and a service
    that answers the summarisation request with 200000 characters, the
    context [build_context] returns, after the emergency truncation, has
    an estimate above [MAX_INPUT_TOKENS]. *)
Lemma ceiling_exceeded_counterexample :
  ∃ context w',
    build_context chars_div_4 BASE_INSTRUCTION service_flood "s" "Go on."
                  long_world = (Returned context, w') ∧
    total_tokens chars_div_4 context > MAX_INPUT_TOKENS.
Proof.
  destruct (build_context_returns chars_div_4 BASE_INSTRUCTION service_flood
              "s" "Go on." long_world) as (context & w' & Hrun).
  exists context, w'. split; [done|].
  assert (total_tokens chars_div_4
            (match (build_context chars_div_4 BASE_INSTRUCTION service_flood
                      "s" "Go on." long_world).1 with
             | Returned c => c
             | Raised => []
             end) > MAX_INPUT_TOKENS) as Hbig by evaluate.
  by rewrite Hrun in Hbig.
Qed.

Lemma build_context_ceiling_witness :
  (∀ text, 0 ≤ chars_div_4 text) ∧
  RECENT_MESSAGE_COUNT < total_turns long_world "s" ∧
  ∃ summary recent context w',
    long_path_data chars_div_4 service_brief "s" long_world
      = (Returned (summary, recent), w') ∧
    build_context chars_div_4 BASE_INSTRUCTION service_brief "s" "Go on."
                  long_world = (Returned context, w') ∧
    total_tokens chars_div_4 context
      ≤ total_tokens chars_div_4
          (system_segment BASE_INSTRUCTION summary :: recent) ∧
    (total_tokens chars_div_4
       (system_segment BASE_INSTRUCTION summary :: recent) ≤ MAX_INPUT_TOKENS →
     context = system_segment BASE_INSTRUCTION summary :: recent ∧
     total_tokens chars_div_4 context ≤ MAX_INPUT_TOKENS) ∧
    (total_tokens chars_div_4
       (system_segment BASE_INSTRUCTION summary :: recent) > MAX_INPUT_TOKENS →
     context = system_segment BASE_INSTRUCTION summary :: lastn 10 recent).
Proof.
  assert (RECENT_MESSAGE_COUNT < total_turns long_world "s") as Hlong
    by evaluate.
  split; [exact chars_div_4_nonneg|]. split; [exact Hlong|].
  exact (build_context_ceiling chars_div_4 BASE_INSTRUCTION service_brief
           "s" "Go on." long_world chars_div_4_nonneg Hlong).
Defined.

(** *** Building twice *)

(** C3 fails as stated: for the session whose only turn is above the
    compression threshold, the second of two consecutive builds makes one
    more request to the service, and with a service whose answers vary
    the two outputs differ. *)
Lemma second_build_compresses_again_counterexample :
  let w1 := log_call heavy_world (compress_messages (content heavy_turn))
                     MESSAGE_COMPRESSED_SIZE in
  let w2 := log_call w1 (compress_messages (content heavy_turn))
                     MESSAGE_COMPRESSED_SIZE in
  let out1 := [mkMessage "user" (COMPRESSED_MARKER +:+ "first answer")] in
  let out2 := [mkMessage "user" (COMPRESSED_MARKER +:+ "later answer")] in
  build_context chars_div_4 BASE_INSTRUCTION service_numbered "s" "Go on."
                heavy_world = (Returned out1, w1) ∧
  db_messages w1 = db_messages heavy_world ∧
  build_context chars_div_4 BASE_INSTRUCTION service_numbered "s" "Go on."
                w1 = (Returned out2, w2) ∧
  out1 ≠ out2 ∧
  length (llm_log w2) = S (length (llm_log w1)).
Proof. intros w1 w2 out1 out2. split_and!; try evaluate; reflexivity. Qed.

Lemma build_context_twice_witness :
  ∃ out w1,
    build_context chars_div_4 BASE_INSTRUCTION service_brief "s" "Go on."
                  long_world = (Returned out, w1) ∧
    build_context chars_div_4 BASE_INSTRUCTION service_brief "s" "And then?"
                  w1 = (Returned out, w1) ∧
    head out = Some (system_segment BASE_INSTRUCTION "A summary.").
Proof.
  destruct (build_context_twice chars_div_4 BASE_INSTRUCTION service_brief
              "s" "Go on." "And then?" long_world)
    as (out1 & w1 & out2 & Hrun1 & _ & Hrun2 & _ & _ & Hhead & Hsame).
  destruct Hsame as [-> Hworld]; [evaluate|].
  rewrite Hworld in Hrun2.
  exists out1, w1. split; [exact Hrun1|]. split; [exact Hrun2|].
  assert (head (match (build_context chars_div_4 BASE_INSTRUCTION
                         service_brief "s" "Go on." long_world).1 with
                | Returned c => c
                | Raised => []
                end) = Some (system_segment BASE_INSTRUCTION "A summary."))
    as Hsummary by evaluate.
  by rewrite Hrun1 in Hsummary.
Defined.

(** *** When the condensation service is down *)

(** C5 fails as stated: with the service down, for the session of 12
    turns whose first turn has been summarised as "Earlier.", the
    incremental summariser asked for the coverage 2 does not return the
    placeholder but the earlier summary, the separator and the
    placeholder. *)
Lemma summariser_down_not_the_placeholder_counterexample :
  let text := "Earlier." +:+ SUMMARY_SEPARATOR +:+ SUMMARY_FALLBACK in
  service_down 0%nat (summary_messages [turn 2]) = None ∧
  generate_summary_incremental chars_div_4 service_down "s" 2 resumed_world
    = (Returned text,
       log_call resumed_world (summary_messages [turn 2]) 1000) ∧
  text ≠ SUMMARY_FALLBACK.
Proof. intros text. split_and!; try evaluate; reflexivity. Qed.

Lemma degradation_when_service_down_witness :
  (chars_div_4 (content heavy_turn) > MESSAGE_COMPRESS_THRESHOLD ∧
   let truncated :=
     str_take (MESSAGE_COMPRESSED_SIZE * 4) (content heavy_turn) in
   compress_if_needed chars_div_4 service_down heavy_turn heavy_world =
     (Returned (mkMessage (role heavy_turn) (COMPRESSED_MARKER +:+ truncated)),
      log_call heavy_world (compress_messages (content heavy_turn))
               MESSAGE_COMPRESSED_SIZE) ∧
   (∃ rest, content heavy_turn = truncated +:+ rest) ∧
   Z.of_nat (String.length truncated) ≤ MESSAGE_COMPRESSED_SIZE * 4) ∧
  (latest_entry (session_cache long_world "s") = None ∧
   generate_summary_incremental chars_div_4 service_down "s" 2 long_world
   = (Returned SUMMARY_FALLBACK,
      log_call long_world
        (summary_messages (log_range (session_log long_world "s") 1 2))
        SUMMARY_MAX_TOKENS)) ∧
  (latest_entry (session_cache stale_world "s") = Some (2, "Earlier.") ∧
   generate_summary_incremental chars_div_4 service_down "s" 5 stale_world
   = (Returned "Earlier.", stale_world)) ∧
  (latest_entry (session_cache resumed_world "s") = Some (1, "Earlier.") ∧
   generate_summary_incremental chars_div_4 service_down "s" 2 resumed_world
   = (Returned ("Earlier." +:+ SUMMARY_SEPARATOR +:+ SUMMARY_FALLBACK),
      log_call resumed_world
        (summary_messages (log_range (session_log resumed_world "s") (1 + 1) 2))
        1000)) ∧
  (latest_entry (session_cache verbose_world "s")
     = Some (1, filler (Z.to_nat 8100)) ∧
   generate_summary_incremental chars_div_4 service_down "s" 2 verbose_world
   = (Returned SUMMARY_FALLBACK,
      log_call
        (log_call verbose_world
           (summary_messages
              (log_range (session_log verbose_world "s") (1 + 1) 2)) 1000)
        (summary_messages (log_range (session_log verbose_world "s") 1 2))
        SUMMARY_MAX_TOKENS)).
Proof.
  assert (chars_div_4 (content heavy_turn) > MESSAGE_COMPRESS_THRESHOLD)
    as Hlarge by evaluate.
  assert (latest_entry (session_cache long_world "s") = None) as Hnone
    by evaluate.
  assert (latest_entry (session_cache stale_world "s") = Some (2, "Earlier."))
    as Hstale by evaluate.
  assert (latest_entry (session_cache resumed_world "s")
          = Some (1, "Earlier.")) as Hresumed by evaluate.
  assert (latest_entry (session_cache verbose_world "s")
          = Some (1, filler (Z.to_nat 8100))) as Hverbose by evaluate.
  destruct (degradation_when_service_down chars_div_4 BASE_INSTRUCTION)
    as (_ & Hsummariser & Hcompress & _).
  split; [|split; [|split; [|split]]]; (split; [assumption|]).
  - exact (Hcompress heavy_turn heavy_world Hlarge).
  - exact (proj1 (Hsummariser "s" 2 long_world) Hnone).
  - destruct (proj2 (Hsummariser "s" 5 stale_world) 2 "Earlier." Hstale)
      as (Hcovered & _).
    apply Hcovered. right. evaluate.
  - destruct (proj2 (Hsummariser "s" 2 resumed_world) 1 "Earlier." Hresumed)
      as (_ & Hfits & _).
    apply Hfits; [lia|evaluate|evaluate].
  - destruct (proj2 (Hsummariser "s" 2 verbose_world) 1 _ Hverbose)
      as (_ & _ & Hover).
    apply Hover; [lia|evaluate|evaluate].
Defined.



(** *** The live prompt *)

Lemma build_context_ignores_prompt_witness :
  let w0 := mkWorld {[ "s" := turns 3 ++ [mkMessage "user" "Go on."] ]} ∅ [] in
  let built := turns 3 ++ [mkMessage "user" "Go on."] in
  store_message "s" "user" "Go on." short_world = (Returned (), w0) ∧
  build_context chars_div_4 BASE_INSTRUCTION service_brief "s" "Never mind."
                w0 = (Returned built, w0) ∧
  chat_context chars_div_4 BASE_INSTRUCTION service_brief "s" "Go on."
               short_world =
    (Returned (built ++ [mkMessage "user" "Go on."]), w0).
Proof.
  intros w0 built.
  assert (store_message "s" "user" "Go on." short_world = (Returned (), w0))
    as Hstore by evaluate.
  assert (build_context chars_div_4 BASE_INSTRUCTION service_brief "s"
                        "Never mind." w0 = (Returned built, w0))
    as Hbuild by evaluate.
  split; [exact Hstore|]. split; [exact Hbuild|].
  exact (proj2 (build_context_ignores_prompt chars_div_4 BASE_INSTRUCTION
                  service_brief "s" "Never mind." "Anything." short_world)
           "Go on." built w0 w0 Hstore Hbuild).
Defined.

(** ** Further statements at sample sessions *)

(** A server that has not answered yet, and a request body. *)
Definition idle_server : Server := mkServer short_world 0.

Definition sample_body : PromptIn :=
  mkPromptIn "Go on." "x-ai/grok-4-fast" "s" 4000.

Lemma build_context_frame_witness :
  ∃ context w',
    build_context chars_div_4 BASE_INSTRUCTION service_brief "s" "Go on."
                  long_world = (Returned context, w') ∧
    db_messages w' = db_messages long_world ∧
    session_cache w' "t" = session_cache long_world "t" ∧
    session_cache w' "s" !! 1 = session_cache long_world "s" !! 1.
Proof.
  destruct (build_context_frame chars_div_4 BASE_INSTRUCTION service_brief
              "s" "Go on." long_world)
    as (context & w' & Hrun & Hmsgs & Hother & Hsame & _).
  exists context, w'. split_and!; [done|done| |].
  - apply Hother. evaluate.
  - apply Hsame. evaluate.
Defined.

Lemma build_context_request_bound_witness :
  total_turns short_world "s" ≤ RECENT_MESSAGE_COUNT ∧
  ∃ context w',
    build_context chars_div_4 BASE_INSTRUCTION service_brief "s" "Go on."
                  short_world = (Returned context, w') ∧
    llm_log w' =
      llm_log short_world
      ++ [] ++ compress_calls chars_div_4 (replayed_window short_world "s") ∧
    (length (llm_log w') ≤ length (llm_log short_world) + 12)%nat.
Proof.
  assert (total_turns short_world "s" ≤ RECENT_MESSAGE_COUNT) as Hshort
    by evaluate.
  split; [exact Hshort|].
  destruct (build_context_request_bound chars_div_4 BASE_INSTRUCTION
              service_brief "s" "Go on." short_world)
    as (context & w' & calls & Hrun & Hlog & _ & _ & _ & Hbound & Hnone).
  rewrite (Hnone Hshort) in Hlog. by exists context, w'.
Defined.

Lemma emergency_truncation_keeps_all_witness :
  RECENT_MESSAGE_COUNT < total_turns long_world "s" ∧
  long_path_data chars_div_4 service_flood "s" long_world =
    (Returned (flood_text, lastn 10 (turns 12)), flood_world) ∧
  total_tokens chars_div_4
    (system_segment BASE_INSTRUCTION flood_text :: lastn 10 (turns 12))
    > MAX_INPUT_TOKENS ∧
  build_context chars_div_4 BASE_INSTRUCTION service_flood "s" "Go on."
                long_world =
    (Returned (system_segment BASE_INSTRUCTION flood_text
               :: lastn 10 (turns 12)), flood_world) ∧
  ∃ context,
    build_context chars_div_4 BASE_INSTRUCTION service_flood "s" "Go on."
                  long_world = (Returned context, flood_world) ∧
    total_tokens chars_div_4 context > MAX_INPUT_TOKENS.
Proof.
  assert (RECENT_MESSAGE_COUNT < total_turns long_world "s") as Hlong
    by evaluate.
  destruct (emergency_truncation_keeps_all chars_div_4 BASE_INSTRUCTION
              service_flood "s" "Go on." long_world flood_text
              (lastn 10 (turns 12)) flood_world Hlong flood_long_path_data)
    as (_ & Hrun & Hover).
  split; [exact Hlong|]. split; [exact flood_long_path_data|].
  split; [exact flood_exceeds_ceiling|]. split; [exact Hrun|].
  exact (Hover flood_exceeds_ceiling).
Defined.

Lemma build_context_extends_summary_witness :
  latest_entry (session_cache resumed_world "s") = Some (1, "Earlier.") ∧
  length (take 1 (drop 1 (turns 12))) = 1%nat ∧
  ∃ recent,
    build_context chars_div_4 BASE_INSTRUCTION service_brief "s" "Go on."
                  resumed_world =
      (Returned (system_segment BASE_INSTRUCTION
                   ("Earlier." +:+ SUMMARY_SEPARATOR +:+ "A summary.")
                 :: recent),
       add_calls
         (put_summary (log_call resumed_world (summary_messages [turn 2]) 1000)
                      "s" 2 ("Earlier." +:+ SUMMARY_SEPARATOR +:+ "A summary."))
         (compress_calls chars_div_4 (lastn 10 (turns 12)))).
Proof.
  assert (latest_entry (session_cache resumed_world "s") = Some (1, "Earlier."))
    as Hlatest by evaluate.
  split; [exact Hlatest|].
  destruct (build_context_extends_summary chars_div_4 BASE_INSTRUCTION
              service_brief "s" "Go on." resumed_world 1 "Earlier." Hlatest)
    as (Hlen & recent & Hrun & _); [lia|evaluate|evaluate|].
  split; [exact Hlen|]. exists recent. exact Hrun.
Defined.

Lemma build_context_cache_hit_witness :
  RECENT_MESSAGE_COUNT < total_turns cached_world "s" ∧
  session_cache cached_world "s"
    !! (total_turns cached_world "s" - RECENT_MESSAGE_COUNT) = Some "So far." ∧
  ∃ recent,
    build_context chars_div_4 BASE_INSTRUCTION service_down "s" "Go on."
                  cached_world =
      (Returned (system_segment BASE_INSTRUCTION "So far." :: recent),
       add_calls cached_world
         (compress_calls chars_div_4 (lastn 10 (session_log cached_world "s")))).
Proof.
  assert (RECENT_MESSAGE_COUNT < total_turns cached_world "s") as Hlong
    by evaluate.
  assert (session_cache cached_world "s"
            !! (total_turns cached_world "s" - RECENT_MESSAGE_COUNT)
          = Some "So far.") as Hhit by evaluate.
  split; [exact Hlong|]. split; [exact Hhit|].
  destruct (build_context_cache_hit chars_div_4 BASE_INSTRUCTION service_down
              "s" "Go on." cached_world "So far." Hlong Hhit eq_refl)
    as (recent & Hrun & _).
  exists recent. exact Hrun.
Defined.

Lemma summary_endpoint_then_build_witness :
  RECENT_MESSAGE_COUNT < total_turns long_world "s" ∧
  ∃ summary w1 recent,
    get_summary_endpoint chars_div_4 service_brief "s" long_world =
      (Returned (mkSummaryResponse "s" summary (total_turns long_world "s")
                   (Some (total_turns long_world "s" - RECENT_MESSAGE_COUNT))),
       w1) ∧
    db_messages w1 = db_messages long_world ∧
    build_context chars_div_4 BASE_INSTRUCTION service_brief "s" "Go on." w1 =
      (Returned (system_segment BASE_INSTRUCTION summary :: recent),
       add_calls w1 (compress_calls chars_div_4
                       (lastn 10 (session_log long_world "s")))) ∧
    Forall (λ call, ¬ is_summary_call call)
           (compress_calls chars_div_4 (lastn 10 (session_log long_world "s"))).
Proof.
  assert (RECENT_MESSAGE_COUNT < total_turns long_world "s") as Hlong
    by evaluate.
  split; [exact Hlong|].
  exact (summary_endpoint_then_build chars_div_4 BASE_INSTRUCTION
           service_brief "s" "Go on." long_world Hlong).
Defined.

Lemma build_then_summary_endpoint_witness :
  RECENT_MESSAGE_COUNT < total_turns long_world "s" ∧
  ∃ summary recent w1,
    build_context chars_div_4 BASE_INSTRUCTION service_brief "s" "Go on."
                  long_world =
      (Returned (system_segment BASE_INSTRUCTION summary :: recent), w1) ∧
    get_summary_endpoint chars_div_4 service_brief "s" w1 =
      (Returned (mkSummaryResponse "s" summary (total_turns long_world "s")
                   (Some (total_turns long_world "s" - RECENT_MESSAGE_COUNT))),
       w1).
Proof.
  assert (RECENT_MESSAGE_COUNT < total_turns long_world "s") as Hlong
    by evaluate.
  split; [exact Hlong|].
  exact (build_then_summary_endpoint chars_div_4 BASE_INSTRUCTION
           service_brief "s" "Go on." long_world Hlong).
Defined.

(** The server after the sample request has been answered at time 12. *)
Definition answered_server : Server :=
  mkServer
    (append_turn
       (log_call
          (append_turn short_world "s" (mkMessage "user" "Go on."))
          (turns 3 ++ [mkMessage "user" "Go on."; mkMessage "user" "Go on."])
          4000)
       "s" (mkMessage "assistant" "A summary."))
    12.

Lemma sample_chat_answered :
  chat chars_div_4 BASE_INSTRUCTION service_brief 10 12 sample_body idle_server
  = (Responded [mkMessage "assistant" "A summary."], answered_server).
Proof. evaluate. Qed.

Lemma chat_answered_witness :
  chat chars_div_4 BASE_INSTRUCTION service_brief 10 12 sample_body idle_server
    = (Responded [mkMessage "assistant" "A summary."], answered_server) ∧
  ∃ answer,
    [mkMessage "assistant" "A summary."] = [mkMessage "assistant" answer] ∧
    session_log (server_world answered_server) "s" =
      session_log (server_world idle_server) "s"
      ++ [mkMessage "user" "Go on."; mkMessage "assistant" answer] ∧
    (∀ other, other ≠ "s" →
       session_log (server_world answered_server) other =
       session_log (server_world idle_server) other) ∧
    last_request_time answered_server = 12%Q.
Proof.
  split; [exact sample_chat_answered|].
  exact (chat_answered chars_div_4 BASE_INSTRUCTION service_brief 10 12
           sample_body idle_server answered_server _ sample_chat_answered).
Defined.

(** The server after the sample request has failed at the generation
    call. *)
Definition failed_server : Server :=
  mkServer
    (log_call
       (append_turn short_world "s" (mkMessage "user" "Go on."))
       (turns 3 ++ [mkMessage "user" "Go on."; mkMessage "user" "Go on."])
       4000)
    0.

Lemma sample_chat_failed :
  chat chars_div_4 BASE_INSTRUCTION service_down 10 12 sample_body idle_server
  = (HTTPException 500, failed_server).
Proof. evaluate. Qed.

Lemma sample_chat_too_soon :
  chat chars_div_4 BASE_INSTRUCTION service_brief 1 3 sample_body idle_server
  = (HTTPException 429, idle_server).
Proof. evaluate. Qed.

Lemma sample_chat_context :
  chat_context chars_div_4 BASE_INSTRUCTION service_down "s" "Go on."
               short_world =
  (Returned (turns 3 ++ [mkMessage "user" "Go on."; mkMessage "user" "Go on."]),
   append_turn short_world "s" (mkMessage "user" "Go on.")).
Proof. evaluate. Qed.

Lemma chat_refused_witness :
  ((1 - last_request_time idle_server < MIN_REQUEST_INTERVAL)%Q ∧
   chat chars_div_4 BASE_INSTRUCTION service_brief 1 3 sample_body idle_server
     = (HTTPException 429, idle_server)) ∧
  ((MIN_REQUEST_INTERVAL <= 10 - last_request_time idle_server)%Q ∧
   service_down
     (length (llm_log (append_turn short_world "s"
                         (mkMessage "user" "Go on."))))
     (turns 3 ++ [mkMessage "user" "Go on."; mkMessage "user" "Go on."])
     = None ∧
   ∃ server',
     chat chars_div_4 BASE_INSTRUCTION service_down 10 12 sample_body
          idle_server = (HTTPException 500, server') ∧
     session_log (server_world server') "s" =
       session_log (server_world idle_server) "s"
       ++ [mkMessage "user" "Go on."] ∧
     last_request_time server' = last_request_time idle_server).
Proof.
  assert (1 - last_request_time idle_server < MIN_REQUEST_INTERVAL)%Q
    as Hsoon by reflexivity.
  assert (MIN_REQUEST_INTERVAL <= 10 - last_request_time idle_server)%Q
    as Hpass by (by vm_compute).
  split.
  - split; [exact Hsoon|].
    exact (proj1 (chat_refused chars_div_4 BASE_INSTRUCTION service_brief
                    1 3 sample_body idle_server) Hsoon).
  - split; [exact Hpass|]. split; [reflexivity|].
    destruct (proj2 (chat_refused chars_div_4 BASE_INSTRUCTION service_down
                       10 12 sample_body idle_server) Hpass _ _
                sample_chat_context eq_refl)
      as (server' & Hrun & Hlog & _ & Hlast).
    by exists server'.
Defined.

Lemma chat_rate_limited_after_answer_witness :
  chat chars_div_4 BASE_INSTRUCTION service_brief 10 12 sample_body idle_server
    = (Responded [mkMessage "assistant" "A summary."], answered_server) ∧
  (13 - 12 < MIN_REQUEST_INTERVAL)%Q ∧
  chat chars_div_4 BASE_INSTRUCTION service_brief 13 15
       (mkPromptIn "And then?" "x-ai/grok-4-fast" "t" 4000) answered_server
    = (HTTPException 429, answered_server).
Proof.
  assert (13 - 12 < MIN_REQUEST_INTERVAL)%Q as Hsoon by reflexivity.
  split; [exact sample_chat_answered|]. split; [exact Hsoon|].
  exact (chat_rate_limited_after_answer chars_div_4 BASE_INSTRUCTION
           service_brief 10 12 sample_body idle_server answered_server _
           13 15 _ sample_chat_answered Hsoon).
Defined.


Lemma compress_message_fallback_witness :
  service_down (length (llm_log heavy_world))
               (compress_messages (content heavy_turn)) = None ∧
  0 ≤ MESSAGE_COMPRESSED_SIZE ∧
  ∃ truncated,
    compress_message service_down (content heavy_turn) MESSAGE_COMPRESSED_SIZE
                     heavy_world =
      (Returned truncated,
       log_call heavy_world (compress_messages (content heavy_turn))
                MESSAGE_COMPRESSED_SIZE) ∧
    (∃ rest, content heavy_turn = truncated +:+ rest) ∧
    Z.of_nat (String.length truncated)
      = Z.min (4 * MESSAGE_COMPRESSED_SIZE)
              (Z.of_nat (String.length (content heavy_turn))) ∧
    (Z.of_nat (String.length (content heavy_turn)) ≤ 4 * MESSAGE_COMPRESSED_SIZE →
     truncated = content heavy_turn).
Proof.
  assert (0 ≤ MESSAGE_COMPRESSED_SIZE) as Htarget by evaluate.
  split; [reflexivity|]. split; [exact Htarget|].
  exact (compress_message_fallback service_down (content heavy_turn)
           MESSAGE_COMPRESSED_SIZE heavy_world eq_refl Htarget).
Defined.
